(** * Plugin subsystem of mattermost-server: shallow embedding and properties

    Embedded sources:
    - [app/plugin.go]: [ActivatePlugins], [InstallPlugin],
      [ServePluginRequest], [getKeyHash], [SetPluginKey], [GetPluginKey],
      [DeletePluginKey];
    - [store/sqlstore/plugin_store.go]: [SaveOrUpdate], [Get], [Delete];
    - [model/plugin_key_value.go]: [PluginKeyValue], [IsValid].

    Go strings are byte strings: they are modelled as [string], whose
    characters are the 256 values of [ascii].  A Go function returning a
    value together with a [*model.AppError] is modelled as a pair whose
    second component is an [option AppError] ([None] for [nil]). *)

From Stdlib Require Import ZArith Lia Ascii String.
From stdpp Require Import base option list strings gmap sorting.

Local Open Scope string_scope.
Local Open Scope list_scope.
Local Open Scope Z_scope.

(** ** Go strings: bytes, case mapping, UTF-8 rune count *)

Module GoString.

(** The bytes of a Go string. *)
Definition byte_of (c : ascii) : Z := Z.of_N (Ascii.N_of_ascii c).

Definition bytes (s : string) : list Z := byte_of <$> String.list_ascii_of_string s.

(** [unicode/utf8]: the [first] table, as the size of the encoding that a
    leading byte announces and the range accepted for its second byte;
    [None] is the table's [xx] (no valid encoding starts with the byte). *)
Definition first (c : Z) : option (nat * Z * Z) :=
  if c <? 0xC2 then None
  else if c <? 0xE0 then Some (2%nat, 0x80, 0xBF)
  else if c =? 0xE0 then Some (3%nat, 0xA0, 0xBF)
  else if c <? 0xED then Some (3%nat, 0x80, 0xBF)
  else if c =? 0xED then Some (3%nat, 0x80, 0x9F)
  else if c <? 0xF0 then Some (3%nat, 0x80, 0xBF)
  else if c =? 0xF0 then Some (4%nat, 0x90, 0xBF)
  else if c <? 0xF4 then Some (4%nat, 0x80, 0xBF)
  else if c =? 0xF4 then Some (4%nat, 0x80, 0x8F)
  else None.

Definition out_of (lo hi c : Z) : bool := (c <? lo) || (hi <? c).

(** The number of bytes that one turn of the loop of
    [utf8.RuneCountInString] steps over at the start of [s]. *)
Definition rune_step (s : list Z) : nat :=
  match s with
  | [] => 1%nat
  | c :: rest =>
      if c <? 0x80 then 1%nat
      else match first c with
           | None => 1%nat
           | Some (size, lo, hi) =>
               if (length s <? size)%nat then 1%nat
               else match rest with
                    | c1 :: c2 :: c3 :: _ =>
                        if out_of lo hi c1 then 1%nat
                        else if (size =? 2)%nat then 2%nat
                        else if out_of 0x80 0xBF c2 then 1%nat
                        else if (size =? 3)%nat then 3%nat
                        else if out_of 0x80 0xBF c3 then 1%nat
                        else 4%nat
                    | [c1; c2] =>
                        if out_of lo hi c1 then 1%nat
                        else if (size =? 2)%nat then 2%nat
                        else if out_of 0x80 0xBF c2 then 1%nat
                        else 3%nat
                    | [c1] => if out_of lo hi c1 then 1%nat else 2%nat
                    | [] => 1%nat
                    end
           end
  end.

Fixpoint rune_count (fuel : nat) (s : list Z) : Z :=
  match fuel, s with
  | O, _ | _, [] => 0
  | S fuel', _ => 1 + rune_count fuel' (drop (rune_step s) s)
  end.

(** [utf8.RuneCountInString]; every turn of its loop steps over at least
    one byte, so [length s] turns are enough. *)
Definition RuneCountInString (s : string) : Z :=
  rune_count (String.length s) (bytes s).

(** [strings.ToUpper] and [strings.ToLower] on the ASCII letters; the
    other bytes are kept. *)
Definition upper_ascii (c : ascii) : ascii :=
  let n := Ascii.nat_of_ascii c in
  if (97 <=? n)%nat && (n <=? 122)%nat then Ascii.ascii_of_nat (n - 32) else c.

Definition lower_ascii (c : ascii) : ascii :=
  let n := Ascii.nat_of_ascii c in
  if (65 <=? n)%nat && (n <=? 90)%nat then Ascii.ascii_of_nat (n + 32) else c.

Fixpoint map_string (f : ascii → ascii) (s : string) : string :=
  match s with
  | EmptyString => EmptyString
  | String c s' => String (f c) (map_string f s')
  end.

Definition ToUpper : string → string := map_string upper_ascii.
Definition ToLower : string → string := map_string lower_ascii.

(** [strings.HasPrefix s prefix]. *)
Definition HasPrefix (s prefix : string) : bool := String.prefix prefix s.

(** The slice expression [s[n:]]; [None] is the run-time panic of an
    index out of range. *)
Fixpoint slice_from (n : nat) (s : string) : option string :=
  match n, s with
  | O, _ => Some s
  | S _, EmptyString => None
  | S n', String _ s' => slice_from n' s'
  end.

End GoString.

Import GoString.

(** ** Package [model]: errors and HTTP status codes *)

Module Model.

Definition StatusBadRequest : Z := 400.
Definition StatusNotFound : Z := 404.
Definition StatusInternalServerError : Z := 500.
Definition StatusNotImplemented : Z := 501.

(** [model.AppError] as built by [model.NewAppError(where, id, params,
    details, status)]; the translation parameters are not kept. *)
Record AppError := NewAppError {
  Where : string;
  ErrId : string;
  DetailedError : string;
  StatusCode : Z
}.

#[global] Instance AppError_eq_dec : EqDecision AppError.
Proof. solve_decision. Defined.

(** The error kinds of the specification's taxonomy, read off an
    [AppError]. *)
Definition InvalidArgument (e : AppError) : Prop :=
  StatusCode e = StatusBadRequest ∧
  (ErrId e = "app.plugin.key_value.plugin_id.app_error" ∨
   ErrId e = "app.plugin.key_value.key.app_error").

Definition StorageError (e : AppError) : Prop :=
  StatusCode e = StatusInternalServerError.

(** [model/plugin_key_value.go] *)
Definition KEY_VALUE_KEY_MAX_RUNES : Z := 128.

Record PluginKeyValue := {
  Key : string;
  Value : list Z
}.

#[global] Instance PluginKeyValue_eq_dec : EqDecision PluginKeyValue.
Proof. solve_decision. Defined.

Definition IsValid (kv : PluginKeyValue) : option AppError :=
  if (String.length (Key kv) =? 0)%nat
     || (KEY_VALUE_KEY_MAX_RUNES <? RuneCountInString (Key kv)) then
    Some (NewAppError "PluginKeyValue.IsValid"
            "model.plugin_key_value.is_valid.key.app_error"
            ("key=" +:+ Key kv) StatusBadRequest)
  else None.

(** Modelled from the spec: [model.Manifest], whose declaration is not
    among the sources: the unique identifier of the extension and whether
    it ships a server-side and a client-side component. *)
Record Manifest := {
  Id : string;
  Backend : option string;
  Webapp : option string
}.

#[global] Instance Manifest_eq_dec : EqDecision Manifest.
Proof. solve_decision. Defined.

(** Modelled from the spec: [Manifest.HasClient], whether the manifest
    declares a client component. *)
Definition HasClient (m : Manifest) : bool := bool_decide (is_Some (Webapp m)).

(** Modelled from the spec: [Manifest.ClientManifest], the client-relevant
    subset of the manifest. *)
Definition ClientManifest (m : Manifest) : Manifest :=
  {| Id := Id m; Backend := None; Webapp := Webapp m |}.

(** [model.BundleInfo]: an installed bundle, its directory and manifest. *)
Record BundleInfo := {
  Path : list string;
  BundleManifest : Manifest
}.

(** [model.PluginState] and the part of [model.Config] that the plugin
    code reads: [PluginSettings.Enable] and [PluginSettings.PluginStates]. *)
Record PluginState := { Enable : bool }.

Record Config := {
  PluginSettingsEnable : bool;
  PluginStates : gmap string PluginState
}.

(** [model.WebSocketEvent] as built by [NewWebSocketEvent(event, "", "",
    "", nil)] followed by [Add("manifest", m)]. *)
Record WebSocketEvent := {
  Event : string;
  EventManifest : Manifest
}.

#[global] Instance WebSocketEvent_eq_dec : EqDecision WebSocketEvent.
Proof. solve_decision. Defined.

Definition WEBSOCKET_EVENT_PLUGIN_ACTIVATED : string := "plugin_activated".
Definition WEBSOCKET_EVENT_PLUGIN_DEACTIVATED : string := "plugin_deactivated".

(** [model.Session], of which the request router reads [UserId]. *)
Record Session := { UserId : string }.

(** Constants of package [model] used by the request router and the
    store. *)
Definition HEADER_AUTH : string := "Authorization".
Definition HEADER_BEARER : string := "BEARER".
Definition HEADER_TOKEN : string := "token".
Definition HEADER_REQUESTED_WITH : string := "X-Requested-With".
Definition HEADER_REQUESTED_WITH_XML : string := "XMLHttpRequest".
Definition SESSION_COOKIE_TOKEN : string := "MMAUTHTOKEN".
Definition DATABASE_DRIVER_MYSQL : string := "mysql".
Definition DATABASE_DRIVER_POSTGRES : string := "postgres".

(** Lines written through [l4g]. *)
Inductive LogLine :=
  | LogError (msg : string)
  | LogInfo (msg : string).

#[global] Instance LogLine_eq_dec : EqDecision LogLine.
Proof. solve_decision. Defined.

End Model.

Import Model.

(** ** The key hasher: FNV-128a over [pluginId + key], base64 encoded *)

Module KeyHash.

(** [hash/fnv]: 128-bit FNV-1a.  The state is one 128-bit word; the
    multiplication wraps around at [2^128]. *)
Definition offset128 : Z := 0x6c62272e07bb014262b821756295c58d.
Definition prime128 : Z := 0x0000000001000000000000000000013b.
Definition wrap128 (x : Z) : Z := x mod 2 ^ 128.

Definition New128a : Z := offset128.

Definition Write128a (s : Z) (data : list Z) : Z :=
  foldl (λ h c, wrap128 (Z.lxor h c * prime128)) s data.

(** [Sum(nil)]: the state as [n] bytes, most significant first. *)
Fixpoint be_bytes (n : nat) (h : Z) : list Z :=
  match n with
  | O => []
  | S n' => be_bytes n' (h / 256) ++ [h mod 256]
  end.

Definition Sum128a (s : Z) : list Z := be_bytes 16 s.

(** [encoding/base64]: [StdEncoding], with [=] padding. *)
Definition encodeStd : string :=
  "ABCDEFGHIJKLMNOPQRSTUVWXYZabcdefghijklmnopqrstuvwxyz0123456789+/".

Definition enc (v : Z) : ascii :=
  default "="%char (String.get (Z.to_nat v) encodeStd).

Fixpoint EncodeToString (src : list Z) : string :=
  match src with
  | [] => ""
  | [a] =>
      let val := a * 65536 in
      String (enc (val / 262144 mod 64))
        (String (enc (val / 4096 mod 64)) "==")
  | [a; b] =>
      let val := a * 65536 + b * 256 in
      String (enc (val / 262144 mod 64))
        (String (enc (val / 4096 mod 64))
           (String (enc (val / 64 mod 64)) "="))
  | a :: b :: c :: rest =>
      let val := a * 65536 + b * 256 + c in
      String (enc (val / 262144 mod 64))
        (String (enc (val / 4096 mod 64))
           (String (enc (val / 64 mod 64))
              (String (enc (val mod 64)) (EncodeToString rest))))
  end.

(** [getKeyHash] of [app/plugin.go]. *)
Definition getKeyHash (pluginId key : string) : string * option AppError :=
  if (String.length pluginId =? 0)%nat then
    ("", Some (NewAppError "getKeyHash"
                 "app.plugin.key_value.plugin_id.app_error" "" StatusBadRequest))
  else if (String.length key =? 0)%nat then
    ("", Some (NewAppError "getKeyHash"
                 "app.plugin.key_value.key.app_error" "" StatusBadRequest))
  else
    let hash := Write128a New128a (bytes (pluginId +:+ key)) in
    (EncodeToString (Sum128a hash), None).

(** A byte value. *)
Definition is_byte (b : Z) : Prop := 0 ≤ b < 256.

(** The position of a character in the alphabet ([-1] when it has
    none). *)
Definition dec (c : ascii) : Z :=
  default (-1) (head (filter (λ v, enc v = c) (seqZ 0 64))).

End KeyHash.

(** ** The database behind [store/sqlstore] *)

Module Sqlstore.

(** Errors that a statement returns: [sql.ErrNoRows], a violated
    uniqueness constraint, or any other failure of the driver. *)
Inductive SqlError :=
  | ErrNoRows
  | ErrUniqueViolation (index : string)
  | ErrDriver (msg : string).

#[global] Instance SqlError_eq_dec : EqDecision SqlError.
Proof. solve_decision. Defined.

(** [err.Error()] *)
Definition ErrorText (err : SqlError) : string :=
  match err with
  | ErrNoRows => "sql: no rows in result set"
  | ErrUniqueViolation index => "duplicate key value violates unique constraint " +:+ index
  | ErrDriver msg => msg
  end.

(** Modelled from the spec: [IsUniqueConstraintError], whose definition is
    not among the sources: the failure is a uniqueness violation on one of
    the named indexes. *)
Definition IsUniqueConstraintError (err : SqlError) (indexName : list string) : bool :=
  match err with
  | ErrUniqueViolation index => bool_decide (index ∈ indexName)
  | _ => false
  end.

(** The statements that the plugin store sends. *)
Inductive Statement :=
  | StUpdate (kv : PluginKeyValue)
  | StInsert (kv : PluginKeyValue)
  | StUpsert (kv : PluginKeyValue)
  | StSelect (key : string)
  | StDelete (key : string).

#[global] Instance Statement_eq_dec : EqDecision Statement.
Proof. solve_decision. Defined.

(** What the rest of the system does around one statement: the writes of
    concurrent sessions that commit just before it runs, and the failure
    of the driver, if any, that it meets. *)
Record Turn := {
  Rivals : list PluginKeyValue;
  Fault : option SqlError
}.

(** Modelled from the spec: the database collaborator, a table
    [PluginKeyValueStore] whose primary key [PKey] holds the hashed key,
    reached through a driver.  [Schedule] lists the turns of the
    statements still to come (a statement past its end runs undisturbed)
    and [Issued] the statements sent so far. *)
Record SqlStore := {
  DriverName : string;
  Rows : gmap string (list Z);
  Schedule : list Turn;
  Issued : list Statement
}.

Definition commit (rows : gmap string (list Z)) (kv : PluginKeyValue) : gmap string (list Z) :=
  <[Key kv := Value kv]> rows.

Definition set_rows (rows : gmap string (list Z)) (db : SqlStore) : SqlStore :=
  {| DriverName := DriverName db; Rows := rows;
     Schedule := Schedule db; Issued := Issued db |}.

(** A statement reaches the database: it is recorded, the concurrent
    writes of its turn commit, and the fault of its turn is reported. *)
Definition enter (st : Statement) (db : SqlStore) : option SqlError * SqlStore :=
  match Schedule db with
  | [] =>
      (None, {| DriverName := DriverName db; Rows := Rows db;
                Schedule := []; Issued := Issued db ++ [st] |})
  | t :: rest =>
      (Fault t, {| DriverName := DriverName db;
                   Rows := foldl commit (Rows db) (Rivals t);
                   Schedule := rest; Issued := Issued db ++ [st] |})
  end.

(** The turn of the [n]-th statement to come. *)
Definition turn (n : nat) (db : SqlStore) : Turn :=
  default {| Rivals := []; Fault := None |} (Schedule db !! n).

(** [GetMaster().Update(kv)]: rows affected and error. *)
Definition Update (kv : PluginKeyValue) (db : SqlStore) : (Z * option SqlError) * SqlStore :=
  match enter (StUpdate kv) db with
  | (Some err, db1) => ((0, Some err), db1)
  | (None, db1) =>
      match Rows db1 !! Key kv with
      | Some _ => ((1, None), set_rows (commit (Rows db1) kv) db1)
      | None => ((0, None), db1)
      end
  end.

(** [GetMaster().Insert(kv)] *)
Definition Insert (kv : PluginKeyValue) (db : SqlStore) : option SqlError * SqlStore :=
  match enter (StInsert kv) db with
  | (Some err, db1) => (Some err, db1)
  | (None, db1) =>
      match Rows db1 !! Key kv with
      | Some _ => (Some (ErrUniqueViolation "PKey"), db1)
      | None => (None, set_rows (commit (Rows db1) kv) db1)
      end
  end.

(** [Exec("INSERT INTO PluginKeyValueStore ... ON DUPLICATE KEY UPDATE
    PValue = :Value")] *)
Definition ExecUpsert (kv : PluginKeyValue) (db : SqlStore) : option SqlError * SqlStore :=
  match enter (StUpsert kv) db with
  | (Some err, db1) => (Some err, db1)
  | (None, db1) => (None, set_rows (commit (Rows db1) kv) db1)
  end.

(** [SelectOne(&kv, "SELECT * FROM PluginKeyValueStore WHERE PKey = :Key")] *)
Definition SelectOne (key : string) (db : SqlStore) : (option PluginKeyValue * option SqlError) * SqlStore :=
  match enter (StSelect key) db with
  | (Some err, db1) => ((None, Some err), db1)
  | (None, db1) =>
      match Rows db1 !! key with
      | Some v => ((Some {| Key := key; Value := v |}, None), db1)
      | None => ((None, Some ErrNoRows), db1)
      end
  end.

(** [Exec("DELETE FROM PluginKeyValueStore WHERE PKey = :Key")] *)
Definition ExecDelete (key : string) (db : SqlStore) : option SqlError * SqlStore :=
  match enter (StDelete key) db with
  | (Some err, db1) => (Some err, db1)
  | (None, db1) => (None, set_rows (delete key (Rows db1)) db1)
  end.

(** [store.StoreResult] *)
Inductive StoreData :=
  | DataKeyValue (kv : PluginKeyValue)
  | DataBool (b : bool).

Record StoreResult := {
  Data : option StoreData;
  Err : option AppError
}.

Definition failed (e : AppError) : StoreResult := {| Data := None; Err := Some e |}.
Definition done_with (d : StoreData) : StoreResult := {| Data := Some d; Err := None |}.

(** [SqlPluginStore.SaveOrUpdate] *)
Definition SaveOrUpdate (kv : PluginKeyValue) (ps : SqlStore) : StoreResult * SqlStore :=
  match IsValid kv with
  | Some e => (failed e, ps)
  | None =>
      if decide (DriverName ps = DATABASE_DRIVER_POSTGRES) then
        match Update kv ps with
        | ((_, Some err), ps1) =>
            (failed (NewAppError "SqlPluginStore.SaveOrUpdate"
                       "store.sql_plugin_store.save.app_error"
                       (ErrorText err) StatusInternalServerError), ps1)
        | ((rowsAffected, None), ps1) =>
            if rowsAffected =? 0 then
              match Insert kv ps1 with
              | (Some err, ps2) =>
                  if negb (IsUniqueConstraintError err ["PRIMARY"; "Key"; "PKey"]) then
                    (failed (NewAppError "SqlPluginStore.SaveOrUpdate"
                               "store.sql_plugin_store.save.app_error"
                               (ErrorText err) StatusInternalServerError), ps2)
                  else (done_with (DataKeyValue kv), ps2)
              | (None, ps2) => (done_with (DataKeyValue kv), ps2)
              end
            else (done_with (DataKeyValue kv), ps1)
        end
      else if decide (DriverName ps = DATABASE_DRIVER_MYSQL) then
        match ExecUpsert kv ps with
        | (Some err, ps1) =>
            (failed (NewAppError "SqlPluginStore.SaveOrUpdate"
                       "store.sql_plugin_store.save.app_error"
                       (ErrorText err) StatusInternalServerError), ps1)
        | (None, ps1) => (done_with (DataKeyValue kv), ps1)
        end
      else (done_with (DataKeyValue kv), ps)
  end.


(** [fmt.Sprintf("key=%v, err=%v", key, err.Error())] *)
Definition key_err (key : string) (err : SqlError) : string :=
  "key=" +:+ key +:+ ", err=" +:+ ErrorText err.

(** [SqlPluginStore.Get]; [SelectOne] fills [kv] whenever it returns no
    error. *)
Definition Get (key : string) (ps : SqlStore) : StoreResult * SqlStore :=
  match SelectOne key ps with
  | ((_, Some err), ps1) =>
      if decide (err = ErrNoRows) then
        (failed (NewAppError "SqlPluginStore.Get" "store.sql_plugin_store.get.app_error"
                   (key_err key err) StatusNotFound), ps1)
      else
        (failed (NewAppError "SqlPluginStore.Get" "store.sql_plugin_store.get.app_error"
                   (key_err key err) StatusInternalServerError), ps1)
  | ((Some kv, None), ps1) => (done_with (DataKeyValue kv), ps1)
  | ((None, None), ps1) => ({| Data := None; Err := None |}, ps1)
  end.

(** [SqlPluginStore.Delete] *)
Definition Delete (key : string) (ps : SqlStore) : StoreResult * SqlStore :=
  match ExecDelete key ps with
  | (Some err, ps1) =>
      (failed (NewAppError "SqlPluginStore.Delete" "store.sql_plugin_store.delete.app_error"
                 (key_err key err) StatusInternalServerError), ps1)
  | (None, ps1) => (done_with (DataBool true), ps1)
  end.

End Sqlstore.

(** ** The filesystem under the installer *)

Module Filesystem.

(** A directory, or a regular file; a file is kept as what the manifest
    decoder makes of its content ([None] when it is no manifest). *)
Inductive node :=
  | Dir
  | File (manifest : option Manifest).

#[global] Instance node_eq_dec : EqDecision node.
Proof. solve_decision. Defined.

(** A filesystem maps the paths that exist (lists of names from the root)
    to their nodes. *)
Abbreviation FS := (gmap (list string) node).

(** [filepath.Join(dir, name)] *)
Definition Join (dir : list string) (name : string) : list string := dir ++ [name].

(** Nothing exists at [p] or below it. *)
Definition free (p : list string) (fs : FS) : bool :=
  bool_decide (map_Forall (λ q _, ¬ p `prefix_of` q) fs).

Definition TempRoot : list string := ["tmp"].

(** [ioutil.TempDir("", prefix)]: the first candidate name that does not
    exist yet is created; [suffixes] are the random suffixes tried. *)
Fixpoint TempDir (prefix : string) (suffixes : list string) (fs : FS)
  : (list string * option string) * FS :=
  match suffixes with
  | [] => (([], Some "could not create a temporary directory"), fs)
  | sfx :: rest =>
      let try := Join TempRoot (prefix +:+ sfx) in
      if free try fs then ((try, None), <[try := Dir]> fs)
      else TempDir prefix rest fs
  end.

(** [os.RemoveAll(p)] *)
Definition RemoveAll (p : list string) (fs : FS) : FS :=
  filter (λ e, ¬ p `prefix_of` e.1) fs.

(** A tar.gz stream: its members in order, named relative to the root of
    the archive; [Malformed] is a member that cannot be read. *)
Inductive Member :=
  | Entry (name : list string) (n : node)
  | Malformed.

(** Modelled from the spec: [utils.ExtractTarGz], which extracts the
    archive into the directory [dst]; it stops at the first member that
    cannot be read. *)
Fixpoint ExtractTarGz (gzipStream : list Member) (dst : list string) (fs : FS)
  : option string * FS :=
  match gzipStream with
  | [] => (None, fs)
  | Entry name n :: rest => ExtractTarGz rest dst (<[dst ++ name := n]> fs)
  | Malformed :: _ => (Some "ExtractTarGz: unreadable member", fs)
  end.

Fixpoint strip (dir p : list string) : option (list string) :=
  match dir, p with
  | [], _ => Some p
  | d :: dir', x :: p' => if decide (d = x) then strip dir' p' else None
  | _ :: _, [] => None
  end.

Definition is_dir (n : node) : bool :=
  match n with Dir => true | File _ => false end.

(** The entry that the path [e.1] is in the listing of [dir], if any:
    its name and whether it is a directory. *)
Definition dir_entry (dir : list string) (e : list string * node) : option (string * bool) :=
  match strip dir e.1 with
  | Some [name] => Some (name, is_dir e.2)
  | _ => None
  end.

Definition name_le (x y : string * bool) : Prop := String.leb x.1 y.1 = true.

#[global] Instance name_le_dec (x y : string * bool) : Decision (name_le x y).
Proof. unfold name_le. apply _. Defined.

(** [ioutil.ReadDir(dir)]: the entries of [dir], sorted by name. *)
Definition ReadDir (dir : list string) (fs : FS) : list (string * bool) * option string :=
  match fs !! dir with
  | Some Dir => (merge_sort name_le (omap (dir_entry dir) (map_to_list fs)), None)
  | _ => ([], Some "not a directory")
  end.

Definition ManifestName : string := "plugin.json".

(** Modelled from the spec: [model.FindManifest], which parses the
    manifest from the bundle root and fails when it is not found or does
    not parse. *)
Definition FindManifest (dir : list string) (fs : FS) : option Manifest * option string :=
  match fs !! Join dir ManifestName with
  | Some (File (Some m)) => (Some m, None)
  | Some _ => (None, Some "manifest does not parse")
  | None => (None, Some "manifest not found")
  end.

(** Modelled from the spec: [utils.CopyDir], which copies the tree at
    [src] to [dst]; [dst] must not exist yet. *)
Definition CopyDir (src dst : list string) (fs : FS) : option string * FS :=
  match fs !! src with
  | Some Dir =>
      if free dst fs then
        (None,
         foldl (λ acc e, match strip src e.1 with
                         | Some rel => <[dst ++ rel := e.2]> acc
                         | None => acc
                         end) fs (map_to_list fs))
      else (Some "destination already exists", fs)
  | _ => (Some "source is not a directory", fs)
  end.

End Filesystem.

Import Filesystem.

(** ** Package [pluginenv]: the registry of installed and active plugins *)

Module Pluginenv.

(** Modelled from the spec: [pluginenv.Environment], whose definition is
    not among the sources.  It owns the search path and the active set;
    [OnActivate] and [OnDeactivate] give the outcome of an extension's own
    startup and shutdown logic ([None] when it succeeds, the error text
    otherwise). *)
Record Environment := {
  SearchPath : list string;
  activePlugins : gset string;
  OnActivate : string → option string;
  OnDeactivate : string → option string
}.

Definition set_active (s : gset string) (env : Environment) : Environment :=
  {| SearchPath := SearchPath env; activePlugins := s;
     OnActivate := OnActivate env; OnDeactivate := OnDeactivate env |}.

(** Modelled from the spec: [Environment.Plugins], which enumerates the
    installed bundles from the search path: the subdirectories in which a
    manifest is found. *)
Definition bundle_of (searchPath : list string) (fs : FS) (e : string * bool) : option BundleInfo :=
  if e.2 then
    match FindManifest (Join searchPath e.1) fs with
    | (Some m, None) => Some {| Path := Join searchPath e.1; BundleManifest := m |}
    | _ => None
    end
  else None.

Definition Plugins (env : Environment) (fs : FS) : list BundleInfo * option string :=
  match ReadDir (SearchPath env) fs with
  | (_, Some err) => ([], Some err)
  | (entries, None) => (omap (bundle_of (SearchPath env) fs) entries, None)
  end.

(** Modelled from the spec: [Environment.IsPluginActive]. *)
Definition IsPluginActive (env : Environment) (id : string) : bool :=
  bool_decide (id ∈ activePlugins env).

Definition installed (id : string) (bundles : list BundleInfo) : bool :=
  bool_decide (id ∈ (Id ∘ BundleManifest) <$> bundles).

(** Modelled from the spec: [Environment.ActivatePlugin]: inactive to
    active; it fails when the plugin is already active, when it is not
    installed, and when the extension's own startup logic fails, leaving
    the state unchanged. *)
Definition ActivatePlugin (id : string) (env : Environment) (fs : FS)
  : option string * Environment :=
  if IsPluginActive env id then (Some ("plugin already active: " +:+ id), env)
  else
    match Plugins env fs with
    | (_, Some err) => (Some err, env)
    | (bundles, None) =>
        if installed id bundles then
          match OnActivate env id with
          | Some err => (Some err, env)
          | None => (None, set_active ({[id]} ∪ activePlugins env) env)
          end
        else (Some ("plugin not found: " +:+ id), env)
    end.

(** Modelled from the spec: [Environment.DeactivatePlugin]: active to
    inactive, with the symmetric failure modes. *)
Definition DeactivatePlugin (id : string) (env : Environment) (fs : FS)
  : option string * Environment :=
  if negb (IsPluginActive env id) then (Some ("plugin not active: " +:+ id), env)
  else
    match Plugins env fs with
    | (_, Some err) => (Some err, env)
    | (bundles, None) =>
        if installed id bundles then
          match OnDeactivate env id with
          | Some err => (Some err, env)
          | None => (None, set_active (activePlugins env ∖ {[id]}) env)
          end
        else (Some ("plugin not found: " +:+ id), env)
    end.

End Pluginenv.

Import Pluginenv.

(** ** [net/http]: the part of a request that the router touches *)

Module Http.

Record Cookie := {
  Name : string;
  Value : string
}.

#[global] Instance Cookie_eq_dec : EqDecision Cookie.
Proof. solve_decision. Defined.

(** An inbound request.  [Header] holds the header lines under their
    canonical keys, except the [Cookie] lines, which are kept parsed in
    [Cookies]; [Query] is the parsed query string ([r.URL.Query()]) and
    [Vars] the route variables ([mux.Vars(r)]). *)
Record Request := {
  Method : string;
  Header : gmap string (list string);
  Cookies : list Cookie;
  Query : gmap string (list string);
  Vars : gmap string string
}.

(** [Header.Get] and [url.Values.Get]: the first value, or the empty
    string. *)
Definition values_get (vs : gmap string (list string)) (key : string) : string :=
  match vs !! key with
  | Some (v :: _) => v
  | _ => ""
  end.

Definition set_header (h : gmap string (list string)) (r : Request) : Request :=
  {| Method := Method r; Header := h; Cookies := Cookies r;
     Query := Query r; Vars := Vars r |}.

Definition set_cookies (cs : list Cookie) (r : Request) : Request :=
  {| Method := Method r; Header := Header r; Cookies := cs;
     Query := Query r; Vars := Vars r |}.

Definition set_query (q : gmap string (list string)) (r : Request) : Request :=
  {| Method := Method r; Header := Header r; Cookies := Cookies r;
     Query := q; Vars := Vars r |}.

(** [r.Header.Get], [r.Header.Set], [r.Header.Del] *)
Definition HeaderGet (r : Request) (key : string) : string := values_get (Header r) key.

Definition HeaderSet (key value : string) (r : Request) : Request :=
  set_header (<[key := [value]]> (Header r)) r.

Definition HeaderDel (key : string) (r : Request) : Request :=
  if decide (key = "Cookie") then set_cookies [] r
  else set_header (delete key (Header r)) r.

(** [r.Cookie(name)]: the first cookie of that name, [None] for
    [ErrNoCookie]. *)
Definition CookieNamed (r : Request) (name : string) : option Cookie :=
  head (filter (λ c, Name c = name) (Cookies r)).

(** [r.AddCookie(c)] *)
Definition AddCookie (c : Cookie) (r : Request) : Request :=
  set_cookies (Cookies r ++ [c]) r.

End Http.

(** ** [app/plugin.go] *)

Module AppPlugin.

Import Sqlstore.

(** The part of [App] that the plugin code uses: the configuration
    ([a.Config()]), the plugin environment ([nil] until the plugins are
    initialised), the plugin store ([a.Srv.Store.Plugin()]), the session
    resolver ([a.GetSession]), and, as outputs, the events passed to
    [a.Publish] and the lines logged. *)
Record App := {
  Config : Model.Config;
  PluginEnv : option Environment;
  Store : SqlStore;
  GetSession : string → option Session * option AppError;
  Published : list WebSocketEvent;
  Log : list LogLine
}.

Definition set_env (env : option Environment) (a : App) : App :=
  {| Config := Config a; PluginEnv := env; Store := Store a;
     GetSession := GetSession a; Published := Published a; Log := Log a |}.

Definition set_store (ps : SqlStore) (a : App) : App :=
  {| Config := Config a; PluginEnv := PluginEnv a; Store := ps;
     GetSession := GetSession a; Published := Published a; Log := Log a |}.

(** [a.Publish(message)] *)
Definition Publish (message : WebSocketEvent) (a : App) : App :=
  {| Config := Config a; PluginEnv := PluginEnv a; Store := Store a;
     GetSession := GetSession a; Published := Published a ++ [message];
     Log := Log a |}.

(** [l4g.Error] and [l4g.Info] *)
Definition l4g (line : LogLine) (a : App) : App :=
  {| Config := Config a; PluginEnv := PluginEnv a; Store := Store a;
     GetSession := GetSession a; Published := Published a;
     Log := Log a ++ [line] |}.

(** [AppError.Error()] *)
Definition ErrorString (e : AppError) : string :=
  Where e +:+ ": " +:+ ErrId e +:+ ", " +:+ DetailedError e.

(** *** The lifecycle reconciler *)

(** The body of the loop of [ActivatePlugins], for one installed bundle.
    The environment behind the pointer [a.PluginEnv] is threaded next to
    the application. *)
Definition activate_one (fs : FS) (st : Environment * App) (plugin : BundleInfo)
  : Environment * App :=
  let '(env, a) := st in
  let id := Id (BundleManifest plugin) in
  let pluginState :=
    match PluginStates (Config a) !! id with
    | Some state => state
    | None => {| Enable := false |}
    end in
  let active := IsPluginActive env id in
  if Enable pluginState && negb active then
    match ActivatePlugin id env fs with
    | (Some err, env1) => (env1, l4g (LogError err) a)
    | (None, env1) =>
        let a1 :=
          if HasClient (BundleManifest plugin) then
            Publish {| Event := WEBSOCKET_EVENT_PLUGIN_ACTIVATED;
                       EventManifest := ClientManifest (BundleManifest plugin) |} a
          else a in
        (env1, l4g (LogInfo ("Activated " +:+ id +:+ " plugin")) a1)
    end
  else if negb (Enable pluginState) && active then
    match DeactivatePlugin id env fs with
    | (Some err, env1) => (env1, l4g (LogError err) a)
    | (None, env1) =>
        let a1 :=
          if HasClient (BundleManifest plugin) then
            Publish {| Event := WEBSOCKET_EVENT_PLUGIN_DEACTIVATED;
                       EventManifest := ClientManifest (BundleManifest plugin) |} a
          else a in
        (env1, l4g (LogInfo ("Deactivated " +:+ id +:+ " plugin")) a1)
    end
  else (env, a).

(** [App.ActivatePlugins] *)
Definition ActivatePlugins (a : App) (fs : FS) : App :=
  match PluginEnv a with
  | None => l4g (LogError "plugin env not initialized") a
  | Some env =>
      match Plugins env fs with
      | (_, Some err) => l4g (LogError ("failed to activate plugins: " +:+ err)) a
      | (plugins, None) =>
          let '(env1, a1) := foldl (activate_one fs) (env, a) plugins in
          set_env (Some env1) a1
      end
  end.

(** *** The bundle installer *)

(** The bundle root: [tmpDir], or its only entry when that is a
    directory ([len(dir) == 1 && dir[0].IsDir()]). *)
Definition bundle_root (tmpDir : list string) (dir : list (string * bool)) : list string :=
  match dir with
  | [(name, true)] => Join tmpDir name
  | _ => tmpDir
  end.

(** [InstallPlugin] from the point where the temporary directory exists
    up to its [return]s; the deferred removal is in [InstallPlugin].
    [FindManifest] gives a manifest whenever it gives no error; the case
    of neither is kept with the manifest error. *)
Definition install_from (tmpDir : list string) (pluginFile : list Member)
    (env : Environment) (fs : FS) : (option Manifest * option AppError) * FS :=
  match ExtractTarGz pluginFile tmpDir fs with
  | (Some err, fs1) =>
      ((None, Some (NewAppError "InstallPlugin" "app.plugin.extract.app_error"
                      err StatusBadRequest)), fs1)
  | (None, fs1) =>
      match ReadDir tmpDir fs1 with
      | (_, Some err) =>
          ((None, Some (NewAppError "InstallPlugin" "app.plugin.filesystem.app_error"
                          err StatusInternalServerError)), fs1)
      | (dir, None) =>
          let tmpPluginDir := bundle_root tmpDir dir in
          match FindManifest tmpPluginDir fs1 with
          | (_, Some err) =>
              ((None, Some (NewAppError "InstallPlugin" "app.plugin.manifest.app_error"
                              err StatusBadRequest)), fs1)
          | (None, None) =>
              ((None, Some (NewAppError "InstallPlugin" "app.plugin.manifest.app_error"
                              "" StatusBadRequest)), fs1)
          | (Some manifest, None) =>
              match Plugins env fs1 with
              | (_, Some err) =>
                  ((None, Some (NewAppError "InstallPlugin" "app.plugin.install.app_error"
                                  err StatusInternalServerError)), fs1)
              | (bundles, None) =>
                  if existsb (λ bundle, bool_decide (Id (BundleManifest bundle) = Id manifest))
                       bundles then
                    ((None, Some (NewAppError "InstallPlugin" "app.plugin.install_id.app_error"
                                    "" StatusBadRequest)), fs1)
                  else
                    match CopyDir tmpPluginDir (Join (SearchPath env) (Id manifest)) fs1 with
                    | (Some err, fs2) =>
                        ((None, Some (NewAppError "InstallPlugin" "app.plugin.mvdir.app_error"
                                        err StatusInternalServerError)), fs2)
                    | (None, fs2) => ((Some manifest, None), fs2)
                    end
              end
          end
      end
  end.

(** [App.InstallPlugin]; [suffixes] are the random names that
    [ioutil.TempDir] draws. *)
Definition InstallPlugin (suffixes : list string) (pluginFile : list Member)
    (a : App) (fs : FS) : (option Manifest * option AppError) * FS :=
  match PluginEnv a with
  | Some env =>
      if negb (PluginSettingsEnable (Config a)) then
        ((None, Some (NewAppError "InstallPlugin" "app.plugin.disabled.app_error"
                        "" StatusNotImplemented)), fs)
      else
        match TempDir "plugintmp" suffixes fs with
        | ((_, Some err), fs1) =>
            ((None, Some (NewAppError "InstallPlugin" "app.plugin.filesystem.app_error"
                            err StatusInternalServerError)), fs1)
        | ((tmpDir, None), fs1) =>
            let '(res, fs2) := install_from tmpDir pluginFile env fs1 in
            (res, RemoveAll tmpDir fs2)
        end
  | None =>
      ((None, Some (NewAppError "InstallPlugin" "app.plugin.disabled.app_error"
                      "" StatusNotImplemented)), fs)
  end.

(** *** The request router *)

Import Http.

(** The calls made on the [http.ResponseWriter], in order. *)
Inductive WriterCall :=
  | WriteHeader (status : Z)
  | SetHeader (key value : string)
  | WriteBody (body : AppError).

(** How [ServePluginRequest] ends: it answers itself (the disabled
    subsystem), it panics, or it calls the hook dispatcher
    ([a.PluginEnv.Hooks().ServeHTTP]) with the request and the value stored
    in its context under ["plugin_id"]. *)
Inductive Served :=
  | Answered (calls : list WriterCall)
  | Panicked
  | Dispatched (plugin_id : string) (r : Request).

(** The credential of the request: the [if]/[else if] chain that assigns
    [token]; [None] is the panic of a slice out of range. *)
Definition request_token (r : Request) : option string :=
  let authHeader := HeaderGet r HEADER_AUTH in
  if HasPrefix (ToUpper authHeader) (HEADER_BEARER +:+ ":") then
    slice_from (String.length HEADER_BEARER + 1) authHeader
  else if HasPrefix (ToLower authHeader) (HEADER_TOKEN +:+ ":") then
    slice_from (String.length HEADER_TOKEN + 1) authHeader
  else
    match CookieNamed r SESSION_COOKIE_TOKEN with
    | Some cookie =>
        if bool_decide (Method r = "GET")
           || bool_decide (HeaderGet r HEADER_REQUESTED_WITH = HEADER_REQUESTED_WITH_XML)
        then Some (Value cookie)
        else Some (values_get (Query r) "access_token")
    | None => Some (values_get (Query r) "access_token")
    end.

(** The identity step: [Mattermost-User-Id] is deleted, then set from the
    session under the test [err != nil]; reading [session.UserId] of a
    [nil] session panics. *)
Definition attach_identity (a : App) (token : string) (r : Request) : option Request :=
  let r1 := HeaderDel "Mattermost-User-Id" r in
  if negb (bool_decide (token = "")) then
    match GetSession a token with
    | (session, Some err) =>
        match session with
        | Some s => Some (HeaderSet "Mattermost-User-Id" (UserId s) r1)
        | None => None
        end
    | (_, None) => Some r1
    end
  else Some r1.

(** The sanitising step, from [cookies := r.Cookies()] to the assignment
    of [r.URL.RawQuery]. *)
Definition strip_credentials (r : Request) : Request :=
  let cookies := Cookies r in
  let r1 := HeaderDel "Cookie" r in
  let r2 := foldl (λ acc c, if bool_decide (Name c ≠ SESSION_COOKIE_TOKEN)
                            then AddCookie c acc else acc) r1 cookies in
  let r3 := HeaderDel HEADER_AUTH r2 in
  let r4 := HeaderDel "Referer" r3 in
  let newQuery := delete "access_token" (Query r4) in
  set_query newQuery r4.

(** [App.ServePluginRequest] *)
Definition ServePluginRequest (a : App) (r : Request) : Served * App :=
  let disabled :=
    let err := NewAppError "ServePluginRequest" "app.plugin.disabled.app_error"
                 "Enable plugins to serve plugin requests" StatusNotImplemented in
    (Answered [WriteHeader (StatusCode err);
               SetHeader "Content-Type" "application/json";
               WriteBody err],
     l4g (LogError (ErrorString err)) a) in
  match PluginEnv a with
  | None => disabled
  | Some _ =>
      if negb (PluginSettingsEnable (Config a)) then disabled
      else
        match request_token r with
        | None => (Panicked, a)
        | Some token =>
            match attach_identity a token r with
            | None => (Panicked, a)
            | Some r1 =>
                let r2 := strip_credentials r1 in
                let params := Vars r2 in
                (Dispatched (default "" (params !! "plugin_id")) r2, a)
            end
        end
  end.

(** *** The namespaced key-value store *)

Import KeyHash.

(** [App.SetPluginKey] *)
Definition SetPluginKey (pluginId key : string) (value : list Z) (a : App)
  : option AppError * App :=
  match getKeyHash pluginId key with
  | (_, Some err) => (Some err, a)
  | (hash, None) =>
      let kv := {| Key := hash; Model.Value := value |} in
      let '(result, ps) := SaveOrUpdate kv (Store a) in
      let a1 := set_store ps a in
      match Err result with
      | Some e => (Err result, l4g (LogError (ErrorString e)) a1)
      | None => (Err result, a1)
      end
  end.

(** [App.GetPluginKey]; the first component is the value returned,
    [None] for a [nil] slice.  A result of [Get] without error carries
    the row. *)
Definition GetPluginKey (pluginId key : string) (a : App)
  : (option (list Z) * option AppError) * App :=
  match getKeyHash pluginId key with
  | (_, Some err) => ((None, Some err), a)
  | (hash, None) =>
      let '(result, ps) := Get hash (Store a) in
      let a1 := set_store ps a in
      match Err result with
      | Some e =>
          if StatusCode e =? StatusNotFound then ((None, None), a1)
          else ((None, Some e), l4g (LogError (ErrorString e)) a1)
      | None =>
          match Data result with
          | Some (DataKeyValue kv) => ((Some (Model.Value kv), None), a1)
          | _ => ((None, None), a1)
          end
      end
  end.

(** [App.DeletePluginKey] *)
Definition DeletePluginKey (pluginId key : string) (a : App) : option AppError * App :=
  match getKeyHash pluginId key with
  | (_, Some err) => (Some err, a)
  | (hash, None) =>
      let '(result, ps) := Delete hash (Store a) in
      let a1 := set_store ps a in
      match Err result with
      | Some e => (Err result, l4g (LogError (ErrorString e)) a1)
      | None => (Err result, a1)
      end
  end.

End AppPlugin.

(** ** Notions used to state the properties *)

Module Lifecycle.

Import AppPlugin.

Definition bundle_id (p : BundleInfo) : string := Id (BundleManifest p).

(** The persisted state flag of a plugin; a plugin without an entry is
    disabled. *)
Definition desired (cfg : Model.Config) (id : string) : bool :=
  match PluginStates cfg !! id with
  | Some state => Enable state
  | None => false
  end.

(** Whether a plugin is active once the reconciler has dealt with it: an
    enabled plugin is active if it was or if its startup succeeds, a
    disabled one stays active only if it was and its shutdown fails. *)
Definition next_active (cfg : Model.Config) (env : Environment) (id : string) : bool :=
  if desired cfg id
  then IsPluginActive env id || bool_decide (OnActivate env id = None)
  else IsPluginActive env id && negb (bool_decide (OnDeactivate env id = None)).

(** The installed bundles without the later bundles of an identifier
    already listed. *)
Fixpoint first_bundles (plugins : list BundleInfo) : list BundleInfo :=
  match plugins with
  | [] => []
  | p :: rest => p :: filter (λ q, bundle_id q ≠ bundle_id p) (first_bundles rest)
  end.

(** The notification of a transition towards the desired state. *)
Definition lifecycle_event (cfg : Model.Config) (p : BundleInfo) : WebSocketEvent :=
  {| Event := if desired cfg (bundle_id p)
              then WEBSOCKET_EVENT_PLUGIN_ACTIVATED
              else WEBSOCKET_EVENT_PLUGIN_DEACTIVATED;
     EventManifest := ClientManifest (BundleManifest p) |}.

(** The notifications due for a bundle: one when its plugin changes state
    and its manifest declares a client component, none otherwise. *)
Definition notifications (cfg : Model.Config) (env : Environment) (p : BundleInfo)
  : list WebSocketEvent :=
  if xorb (IsPluginActive env (bundle_id p)) (next_active cfg env (bundle_id p))
     && HasClient (BundleManifest p)
  then [lifecycle_event cfg p] else [].

(** The same, when every transition succeeds: one notification when the
    desired and the actual state differ and the manifest declares a
    client component. *)
Definition transition_notifications (cfg : Model.Config) (env : Environment) (p : BundleInfo)
  : list WebSocketEvent :=
  if xorb (IsPluginActive env (bundle_id p)) (desired cfg (bundle_id p))
     && HasClient (BundleManifest p)
  then [lifecycle_event cfg p] else [].

(** The transitions that the reconciler attempts succeed. *)
Definition transitions_succeed (cfg : Model.Config) (env : Environment)
    (plugins : list BundleInfo) : Prop :=
  ∀ p, p ∈ plugins →
    (desired cfg (bundle_id p) = true → IsPluginActive env (bundle_id p) = false →
     OnActivate env (bundle_id p) = None) ∧
    (desired cfg (bundle_id p) = false → IsPluginActive env (bundle_id p) = true →
     OnDeactivate env (bundle_id p) = None).

(** Two environments that differ in the active set only. *)
Definition same_registry (env env' : Environment) : Prop :=
  SearchPath env' = SearchPath env ∧ OnActivate env' = OnActivate env ∧
  OnDeactivate env' = OnDeactivate env.

(** Two applications that differ in the published events and the log
    only. *)
Definition same_app (a a' : App) : Prop :=
  Config a' = Config a ∧ PluginEnv a' = PluginEnv a ∧ Store a' = Store a ∧
  GetSession a' = GetSession a.

(** The error of [InstallPlugin] for an identifier already installed. *)
Definition duplicate_id_error : AppError :=
  NewAppError "InstallPlugin" "app.plugin.install_id.app_error" "" StatusBadRequest.

End Lifecycle.

(** ** Sample data *)

Module Samples.

Import Sqlstore Http AppPlugin.

Definition manifest_of (id : string) (client : bool) : Manifest :=
  {| Id := id; Backend := Some "server/plugin";
     Webapp := if client then Some "webapp/bundle.js" else None |}.

(** A search path with two installed bundles, [jira] (with a client
    component) and [zoom] (without). *)
Definition disk : FS :=
  list_to_map
    [ (["plugins"], Dir);
      (["plugins"; "jira"], Dir);
      (["plugins"; "jira"; "plugin.json"], File (Some (manifest_of "jira" true)));
      (["plugins"; "zoom"], Dir);
      (["plugins"; "zoom"; "plugin.json"], File (Some (manifest_of "zoom" false)));
      (["tmp"], Dir) ].

Definition jira_bundle : BundleInfo :=
  {| Path := ["plugins"; "jira"]; BundleManifest := manifest_of "jira" true |}.

Definition zoom_bundle : BundleInfo :=
  {| Path := ["plugins"; "zoom"]; BundleManifest := manifest_of "zoom" false |}.

(** [zoom] is active; the startup of every plugin ends as [startup]
    says. *)
Definition registry (startup : option string) : Environment :=
  {| SearchPath := ["plugins"]; activePlugins := {["zoom"]};
     OnActivate := λ _, startup; OnDeactivate := λ _, None |}.

(** [jira] is enabled, [zoom] has no state entry. *)
Definition settings : Model.Config :=
  {| PluginSettingsEnable := true;
     PluginStates := {["jira" := {| Enable := true |}]} |}.

(** An empty table behind the given driver; a concurrent session commits
    the key [rival] between the first and the second statement. *)
Definition table (driver : string) (rival : list PluginKeyValue) : SqlStore :=
  {| DriverName := driver; Rows := ∅;
     Schedule := [ {| Rivals := []; Fault := None |};
                   {| Rivals := rival; Fault := None |} ];
     Issued := [] |}.

Definition server (startup : option string) (ps : SqlStore) : App :=
  {| Config := settings; PluginEnv := Some (registry startup); Store := ps;
     GetSession := λ token,
       if bool_decide (token = "s3cr3t") then (Some {| UserId := "alice" |}, None)
       else (None, Some (NewAppError "GetSession" "api.context.invalid_token.error"
                           "" 401));
     Published := []; Log := [] |}.

(** An archive with a wrapping folder and the manifest of a plugin
    called [jira]. *)
Definition jira_archive : list Member :=
  [ Entry ["jira-1.0"] Dir;
    Entry ["jira-1.0"; "plugin.json"] (File (Some (manifest_of "jira" false)));
    Entry ["jira-1.0"; "server"] (File None) ].

(** A [GET] request carrying the session token in all three places. *)
Definition request : Request :=
  {| Method := "GET";
     Header := {[ "Authorization" := ["BEARER:s3cr3t"]; "Accept" := ["*/*"] ]};
     Cookies := [ {| Name := "MMAUTHTOKEN"; Value := "s3cr3t" |};
                  {| Name := "theme"; Value := "dark" |} ];
     Query := {[ "access_token" := ["s3cr3t"]; "page" := ["2"] ]};
     Vars := {[ "plugin_id" := "jira" ]} |}.

(** A request whose only credential is a token that no session has. *)
Definition stale_request : Request :=
  {| Method := "POST";
     Header := {[ "Accept" := ["*/*"] ]};
     Cookies := [];
     Query := {[ "access_token" := ["expired"] ]};
     Vars := {[ "plugin_id" := "jira" ]} |}.

End Samples.

(** ** [app/plugin.go]: the administrative operations *)

Module Admin.

Import Sqlstore Http AppPlugin.

(** The loop that looks an identifier up among the installed bundles and
    stops at the first match. *)
Fixpoint find_manifest (id : string) (plugins : list BundleInfo) : option Manifest :=
  match plugins with
  | [] => None
  | p :: rest =>
      if decide (Id (BundleManifest p) = id) then Some (BundleManifest p)
      else find_manifest id rest
  end.

(** [os.RemoveAll] with its error looked at: [fault] is the failure that
    the removal meets, if any; a removal that fails is taken to remove
    nothing. *)
Definition os_RemoveAll (fault : option string) (p : list string) (fs : FS)
  : option string * FS :=
  match fault with
  | Some err => (Some err, fs)
  | None => (None, RemoveAll p fs)
  end.

(** [App.RemovePlugin] *)
Definition RemovePlugin (id : string) (fault : option string) (a : App) (fs : FS)
  : (option AppError * App) * FS :=
  match PluginEnv a with
  | Some env =>
      if negb (PluginSettingsEnable (Config a)) then
        ((Some (NewAppError "RemovePlugin" "app.plugin.disabled.app_error"
                  "" StatusNotImplemented), a), fs)
      else
        match Plugins env fs with
        | (_, Some err) =>
            ((Some (NewAppError "RemovePlugin" "app.plugin.deactivate.app_error"
                      err StatusBadRequest), a), fs)
        | (plugins, None) =>
            match find_manifest id plugins with
            | None =>
                ((Some (NewAppError "RemovePlugin" "app.plugin.not_installed.app_error"
                          "" StatusBadRequest), a), fs)
            | Some manifest =>
                let deactivated : option AppError * App :=
                  if IsPluginActive env id then
                    match DeactivatePlugin id env fs with
                    | (Some err, env1) =>
                        (Some (NewAppError "RemovePlugin" "app.plugin.deactivate.app_error"
                                 err StatusBadRequest), set_env (Some env1) a)
                    | (None, env1) =>
                        let a1 := set_env (Some env1) a in
                        (None,
                         if HasClient manifest then
                           Publish {| Event := WEBSOCKET_EVENT_PLUGIN_DEACTIVATED;
                                      EventManifest := ClientManifest manifest |} a1
                         else a1)
                    end
                  else (None, a) in
                match deactivated with
                | (Some e, a1) => ((Some e, a1), fs)
                | (None, a1) =>
                    match os_RemoveAll fault (Join (SearchPath env) id) fs with
                    | (Some err, fs1) =>
                        ((Some (NewAppError "RemovePlugin" "app.plugin.remove.app_error"
                                  err StatusInternalServerError), a1), fs1)
                    | (None, fs1) => ((None, a1), fs1)
                    end
                end
            end
        end
  | None =>
      ((Some (NewAppError "RemovePlugin" "app.plugin.disabled.app_error"
                "" StatusNotImplemented), a), fs)
  end.

(** [a.UpdateConfig(f)] *)
Definition UpdateConfig (f : Model.Config → Model.Config) (a : App) : App :=
  {| Config := f (Config a); PluginEnv := PluginEnv a; Store := Store a;
     GetSession := GetSession a; Published := Published a; Log := Log a |}.

(** [cfg.PluginSettings.PluginStates[id] = &model.PluginState{Enable: b}] *)
Definition set_plugin_state (id : string) (b : bool) (cfg : Model.Config) : Model.Config :=
  {| PluginSettingsEnable := PluginSettingsEnable cfg;
     PluginStates := <[id := {| Enable := b |}]> (PluginStates cfg) |}.

(** [App.EnablePlugin].  Modelled from the spec: [a.SaveConfig] persists
    the configuration; [saved] is the error that it returns, if any. *)
Definition EnablePlugin (id : string) (saved : option AppError) (a : App) (fs : FS)
  : option AppError * App :=
  match PluginEnv a with
  | Some env =>
      if negb (PluginSettingsEnable (Config a)) then
        (Some (NewAppError "RemovePlugin" "app.plugin.disabled.app_error"
                 "" StatusNotImplemented), a)
      else
        match Plugins env fs with
        | (_, Some err) =>
            (Some (NewAppError "EnablePlugin" "app.plugin.config.app_error"
                     err StatusInternalServerError), a)
        | (plugins, None) =>
            match find_manifest id plugins with
            | None =>
                (Some (NewAppError "EnablePlugin" "app.plugin.not_installed.app_error"
                         "" StatusBadRequest), a)
            | Some _ =>
                let a1 := UpdateConfig (set_plugin_state id true) a in
                match saved with
                | Some err =>
                    (Some (NewAppError "EnablePlugin" "app.plugin.config.app_error"
                             (ErrorString err) StatusInternalServerError), a1)
                | None => (None, a1)
                end
            end
        end
  | None =>
      (Some (NewAppError "RemovePlugin" "app.plugin.disabled.app_error"
               "" StatusNotImplemented), a)
  end.

(** [App.DisablePlugin] *)
Definition DisablePlugin (id : string) (saved : option AppError) (a : App) (fs : FS)
  : option AppError * App :=
  match PluginEnv a with
  | Some env =>
      if negb (PluginSettingsEnable (Config a)) then
        (Some (NewAppError "RemovePlugin" "app.plugin.disabled.app_error"
                 "" StatusNotImplemented), a)
      else
        match Plugins env fs with
        | (_, Some err) =>
            (Some (NewAppError "DisablePlugin" "app.plugin.config.app_error"
                     err StatusInternalServerError), a)
        | (plugins, None) =>
            match find_manifest id plugins with
            | None =>
                (Some (NewAppError "DisablePlugin" "app.plugin.not_installed.app_error"
                         "" StatusBadRequest), a)
            | Some _ =>
                let a1 := UpdateConfig (set_plugin_state id false) a in
                match saved with
                | Some err =>
                    (Some (NewAppError "DisablePlugin" "app.plugin.config.app_error"
                             (ErrorString err) StatusInternalServerError), a1)
                | None => (None, a1)
                end
            end
        end
  | None =>
      (Some (NewAppError "RemovePlugin" "app.plugin.disabled.app_error"
               "" StatusNotImplemented), a)
  end.

(** The configuration listener that [InitPlugins] registers; [hookErrors]
    are the errors that [a.PluginEnv.Hooks().OnConfigurationChange()]
    returns. *)
Definition pluginConfigListener (prevCfg cfg : Model.Config) (hookErrors : list string)
    (a : App) (fs : FS) : App :=
  match PluginEnv a with
  | None => a
  | Some _ =>
      let a1 :=
        if PluginSettingsEnable prevCfg && PluginSettingsEnable cfg
        then ActivatePlugins a fs else a in
      foldl (λ acc err, l4g (LogError err) acc) a1 hookErrors
  end.

(** [model.PluginsResponse] *)
Record PluginsResponse := {
  Active : list Manifest;
  Inactive : list Manifest
}.

(** [App.GetPluginManifests] *)
Definition GetPluginManifests (a : App) (fs : FS) : option PluginsResponse * option AppError :=
  match PluginEnv a with
  | Some env =>
      if negb (PluginSettingsEnable (Config a)) then
        (None, Some (NewAppError "GetPluginManifests" "app.plugin.disabled.app_error"
                       "" StatusNotImplemented))
      else
        match Plugins env fs with
        | (_, Some err) =>
            (None, Some (NewAppError "GetPluginManifests" "app.plugin.get_plugins.app_error"
                           err StatusInternalServerError))
        | (plugins, None) =>
            (Some (foldl (λ resp plugin,
                     if IsPluginActive env (Id (BundleManifest plugin)) then
                       {| Active := Active resp ++ [BundleManifest plugin];
                          Inactive := Inactive resp |}
                     else
                       {| Active := Active resp;
                          Inactive := Inactive resp ++ [BundleManifest plugin] |})
                   {| Active := []; Inactive := [] |} plugins),
             None)
        end
  | None =>
      (None, Some (NewAppError "GetPluginManifests" "app.plugin.disabled.app_error"
                     "" StatusNotImplemented))
  end.

(** The registered configuration listeners ([utils.AddConfigListener],
    [utils.RemoveConfigListener]) and the field
    [a.PluginConfigListenerId], kept beside [App]. *)
Record Listeners := {
  PluginConfigListenerId : string;
  ConfigListeners : gset string
}.

(** Modelled from the spec: [Environment.Shutdown], which attempts to
    deactivate every active plugin and collects the errors. *)
Definition Shutdown (env : Environment) : list string :=
  omap (OnDeactivate env) (elements (activePlugins env)).

(** [App.ShutDownPlugins] *)
Definition ShutDownPlugins (a : App) (ls : Listeners) : App * Listeners :=
  match PluginEnv a with
  | None => (a, ls)
  | Some env =>
      let a1 := l4g (LogInfo "Shutting down plugins") a in
      let a2 := foldl (λ acc err, l4g (LogError err) acc) a1 (Shutdown env) in
      (set_env None a2,
       {| PluginConfigListenerId := "";
          ConfigListeners := ConfigListeners ls ∖ {[PluginConfigListenerId ls]} |})
  end.

(** A store that no concurrent session and no driver fault disturbs. *)
Definition quiet (db : SqlStore) : Prop := Schedule db = [].

(** The inverse of the FNV prime modulo [2^128]. *)
Definition prime128_inverse : Z := 0xb1041ad2562ff2ff2ff2ff2ff2ff2ff3.

(** A key made of ASCII characters only. *)
Definition ascii_only (s : string) : Prop := Forall (λ b, b < 0x80) (bytes s).

End Admin.

(** * Further sample data *)

Module Scenarios.

Import Sqlstore Http AppPlugin Samples Admin.

(** A PostgreSQL table with one row, which no concurrent session and no
    driver fault disturbs. *)
Definition calm : SqlStore :=
  {| DriverName := "postgres"; Rows := {["stale" := [7]]};
     Schedule := []; Issued := [] |}.

(** The sample server on the undisturbed table. *)
Definition office : App := server None calm.

(** Both sample bundles are active; the shutdown of every plugin ends as
    [shutdown] says. *)
Definition running (shutdown : option string) : Environment :=
  {| SearchPath := ["plugins"]; activePlugins := {["jira"; "zoom"]};
     OnActivate := λ _, None; OnDeactivate := λ _, shutdown |}.

Definition busy (shutdown : option string) : App :=
  set_env (Some (running shutdown)) office.

(** The sample server with the plugin environment switched off. *)
Definition dark : App := set_env None office.


(** An archive with no manifest in it. *)
Definition broken_archive : list Member :=
  [ Entry ["readme.txt"] (File None) ].

Definition listeners : Listeners :=
  {| PluginConfigListenerId := "listener-1";
     ConfigListeners := {["listener-1"; "listener-2"]} |}.

End Scenarios.

(** * Properties *)

Import Sqlstore Http AppPlugin KeyHash.

(** ** The key hasher *)

Section KeyHasher.

(** Test vectors of Go's [hash/fnv] and [encoding/base64]. *)
Example fnv128a_empty : Sum128a (Write128a New128a (bytes "")) =
  [0x6c; 0x62; 0x27; 0x2e; 0x07; 0xbb; 0x01; 0x42;
   0x62; 0xb8; 0x21; 0x75; 0x62; 0x95; 0xc5; 0x8d].
Proof. vm_compute. reflexivity. Qed.

Example fnv128a_a : Sum128a (Write128a New128a (bytes "a")) =
  [0xd2; 0x28; 0xcb; 0x69; 0x6f; 0x1a; 0x8c; 0xaf;
   0x78; 0x91; 0x2b; 0x70; 0x4e; 0x4a; 0x89; 0x64].
Proof. vm_compute. reflexivity. Qed.

Example base64_foobar :
  EncodeToString (bytes "foobar") = "Zm9vYmFy" ∧
  EncodeToString (bytes "fooba") = "Zm9vYmE=" ∧
  EncodeToString (bytes "foob") = "Zm9vYg==".
Proof. vm_compute. auto. Qed.

Example getKeyHash_jira_key :
  getKeyHash "jira" "key" = ("Abe28rNP942UFf6NLApwuA==", None).
Proof. vm_compute. reflexivity. Qed.

Lemma length_zero_empty (s : string) : (String.length s =? 0)%nat = true ↔ s = "".
Proof. destruct s; simpl; split; intros H; try done. Qed.

Lemma length_pos_nonempty (s : string) : s ≠ "" → (String.length s =? 0)%nat = false.
Proof. destruct s; simpl; [done | auto]. Qed.

Lemma byte_of_range (c : ascii) : is_byte (byte_of c).
Proof.
  unfold is_byte, byte_of. pose proof (N_ascii_bounded c). lia.
Qed.

Lemma bytes_range (s : string) : Forall is_byte (bytes s).
Proof.
  unfold bytes. induction s as [|c s IH]; simpl; constructor; auto using byte_of_range.
Qed.

Lemma be_bytes_length (n : nat) (h : Z) : length (be_bytes n h) = n.
Proof.
  revert h. induction n as [|n IH]; intros h; simpl; [done|].
  rewrite length_app, IH. simpl. lia.
Qed.

Lemma be_bytes_range (n : nat) (h : Z) : Forall is_byte (be_bytes n h).
Proof.
  revert h. induction n as [|n IH]; intros h; simpl; [constructor|].
  apply Forall_app. split; [apply IH|].
  constructor; [|constructor]. unfold is_byte.
  pose proof (Z.mod_pos_bound h 256). lia.
Qed.

(** The bytes of [Sum] determine a state that fits in them. *)
Lemma be_bytes_inj (n : nat) (h1 h2 : Z) :
  0 ≤ h1 < 256 ^ Z.of_nat n → 0 ≤ h2 < 256 ^ Z.of_nat n →
  be_bytes n h1 = be_bytes n h2 → h1 = h2.
Proof.
  revert h1 h2. induction n as [|n IH]; intros h1 h2 H1 H2 Heq.
  - simpl in *. lia.
  - simpl in Heq. apply app_inj_2 in Heq as [Hhi Hlo]; [|done].
    injection Hlo as Hlo.
    rewrite Nat2Z.inj_succ, Z.pow_succ_r in H1, H2 by lia.
    assert (h1 / 256 = h2 / 256) as Hq.
    { apply IH; [| |done].
      - split; [apply Z.div_pos; lia|apply Z.div_lt_upper_bound; lia].
      - split; [apply Z.div_pos; lia|apply Z.div_lt_upper_bound; lia]. }
    rewrite (Z.div_mod h1 256), (Z.div_mod h2 256) by lia. congruence.
Qed.

Lemma Write128a_range (s : Z) (data : list Z) :
  0 ≤ s < 2 ^ 128 → 0 ≤ Write128a s data < 2 ^ 128.
Proof.
  unfold Write128a. revert s. induction data as [|c data IH]; intros s Hs; simpl; [done|].
  apply IH. unfold wrap128. apply Z.mod_pos_bound. lia.
Qed.

Lemma Sum128a_inj (data1 data2 : list Z) :
  Sum128a (Write128a New128a data1) = Sum128a (Write128a New128a data2) →
  Write128a New128a data1 = Write128a New128a data2.
Proof.
  assert (0 ≤ New128a < 2 ^ 128) as H0 by (unfold New128a, offset128; lia).
  apply be_bytes_inj; change (256 ^ Z.of_nat 16) with (2 ^ 128);
    by apply Write128a_range.
Qed.

(** The base64 alphabet has no repeated character and no padding
    character. *)
Lemma dec_enc (v : Z) : 0 ≤ v < 64 → dec (enc v) = v ∧ enc v ≠ "="%char.
Proof.
  intros Hv.
  assert (Forall (λ v, dec (enc v) = v ∧ enc v ≠ "="%char) (seqZ 0 64)) as Hall.
  { refine (bool_decide_unpack _ _). vm_compute. exact I. }
  rewrite Forall_seqZ in Hall. apply Hall. lia.
Qed.

Lemma enc_inj (u v : Z) : 0 ≤ u < 64 → 0 ≤ v < 64 → enc u = enc v → u = v.
Proof.
  intros Hu Hv Heq. rewrite <- (proj1 (dec_enc u Hu)), <- (proj1 (dec_enc v Hv)).
  by rewrite Heq.
Qed.

Lemma sextet_range (x : Z) : 0 ≤ x mod 64 < 64.
Proof. apply Z.mod_pos_bound. lia. Qed.

(** Four sextets determine the 24-bit value they are cut from. *)
Lemma sextets_inj (v w : Z) :
  0 ≤ v < 16777216 → 0 ≤ w < 16777216 →
  v / 262144 mod 64 = w / 262144 mod 64 →
  v / 4096 mod 64 = w / 4096 mod 64 →
  v / 64 mod 64 = w / 64 mod 64 →
  v mod 64 = w mod 64 → v = w.
Proof. intros. Z.to_euclidean_division_equations. lia. Qed.

Lemma enc_not_pad (x : Z) : enc (x mod 64) ≠ "="%char.
Proof. apply dec_enc, sextet_range. Qed.

Lemma enc_mod_inj (x y : Z) : enc (x mod 64) = enc (y mod 64) → x mod 64 = y mod 64.
Proof. apply enc_inj; apply sextet_range. Qed.

Local Ltac sextets :=
  repeat match goal with
         | H : enc (_ mod 64) = enc (_ mod 64) |- _ => apply enc_mod_inj in H
         | H : enc (_ mod 64) = "="%char |- _ => by apply enc_not_pad in H
         | H : "="%char = enc (_ mod 64) |- _ => symmetry in H; by apply enc_not_pad in H
         end.

(** [EncodeToString] is injective on byte strings. *)
Lemma EncodeToString_inj (l1 l2 : list Z) :
  Forall is_byte l1 → Forall is_byte l2 →
  EncodeToString l1 = EncodeToString l2 → l1 = l2.
Proof.
  remember (length l1) as n eqn:Hn.
  assert (length l1 ≤ n)%nat as Hlen by lia. clear Hn.
  revert l1 l2 Hlen. induction n as [|n IH]; intros l1 l2 Hlen H1 H2 Heq.
  { destruct l1; simpl in Hlen; [|lia].
    destruct l2 as [|a [|b [|c r]]]; simpl in Heq; congruence. }
  destruct l1 as [|a [|b [|c r]]]; destruct l2 as [|a' [|b' [|c' r']]];
    simpl in Heq; try discriminate Heq; try done;
    repeat match goal with H : Forall _ (_ :: _) |- _ => apply Forall_cons in H as [? H] end;
    unfold is_byte in *; simplify_eq; sextets.
  - f_equal. Z.to_euclidean_division_equations. lia.
  - assert (a = a' ∧ b = b') as [-> ->]; [|done].
    Z.to_euclidean_division_equations. lia.
  - assert (a * 65536 + b * 256 + c = a' * 65536 + b' * 256 + c') as Hv.
    { apply sextets_inj; try done; lia. }
    assert (a = a' ∧ b = b' ∧ c = c') as (-> & -> & ->) by lia.
    do 3 f_equal. apply IH; try done. simpl in Hlen. lia.
Qed.

Lemma getKeyHash_ok (pluginId key : string) :
  pluginId ≠ "" → key ≠ "" →
  getKeyHash pluginId key =
    (EncodeToString (Sum128a (Write128a New128a (bytes (pluginId +:+ key)))), None).
Proof.
  intros Hp Hk. unfold getKeyHash.
  by rewrite (length_pos_nonempty _ Hp), (length_pos_nonempty _ Hk).
Qed.

(** The hashed key is 24 characters long. *)
Lemma EncodeToString_16 (l : list Z) :
  length l = 16%nat → String.length (EncodeToString l) = 24%nat.
Proof.
  intros Hl. do 17 (destruct l as [|? l]; simpl in Hl; try lia). reflexivity.
Qed.

End KeyHasher.

(** ** Validity of the hashed record *)

Section Validity.

(** [utf8.RuneCountInString] on the bytes of ["h\u00e9llo"], of the euro
    sign, and of two ill-formed sequences. *)
Example rune_count_utf8 :
  rune_count 6 [0x68; 0xC3; 0xA9; 0x6C; 0x6C; 0x6F] = 5 ∧
  rune_count 3 [0xE2; 0x82; 0xAC] = 1 ∧
  rune_count 2 [0xFF; 0x41] = 2 ∧
  rune_count 2 [0xC3; 0x41] = 2.
Proof. vm_compute. auto. Qed.

Lemma rune_step_pos (s : list Z) : (1 ≤ rune_step s)%nat.
Proof. unfold rune_step. repeat case_match; lia. Qed.

Lemma rune_count_le (fuel : nat) (s : list Z) :
  0 ≤ rune_count fuel s ≤ Z.of_nat (length s).
Proof.
  revert s. induction fuel as [|fuel IH]; intros s; simpl.
  { destruct s; simpl; lia. }
  destruct s as [|c s]; [simpl; lia|].
  specialize (IH (drop (rune_step (c :: s)) (c :: s))).
  rewrite length_drop in IH. pose proof (rune_step_pos (c :: s)).
  simpl length in *. lia.
Qed.

Lemma bytes_length (s : string) : length (bytes s) = String.length s.
Proof. unfold bytes. induction s; simpl; auto. Qed.

(** A key of 1 to 128 bytes is valid. *)
Lemma IsValid_short (kv : PluginKeyValue) :
  Key kv ≠ "" → (String.length (Key kv) ≤ 128)%nat → IsValid kv = None.
Proof.
  intros Hne Hlen. unfold IsValid, RuneCountInString, KEY_VALUE_KEY_MAX_RUNES.
  rewrite (length_pos_nonempty _ Hne). simpl.
  pose proof (rune_count_le (String.length (Key kv)) (bytes (Key kv))) as Hr.
  rewrite bytes_length in Hr.
  destruct (128 <? _) eqn:E; [|done]. apply Z.ltb_lt in E. lia.
Qed.

Lemma hashed_key_valid (pluginId key : string) (value : list Z) :
  pluginId ≠ "" → key ≠ "" →
  IsValid {| Key := (getKeyHash pluginId key).1; Model.Value := value |} = None.
Proof.
  intros Hp Hk. rewrite getKeyHash_ok by done.
  pose proof (EncodeToString_16 _ (be_bytes_length 16
    (Write128a New128a (bytes (pluginId +:+ key))))) as Hlen.
  fold (Sum128a (Write128a New128a (bytes (pluginId +:+ key)))) in Hlen.
  revert Hlen. generalize (EncodeToString (Sum128a (Write128a New128a (bytes (pluginId +:+ key))))).
  intros h Hlen. apply IsValid_short; simpl.
  - intros E. rewrite E in Hlen. discriminate.
  - rewrite Hlen. lia.
Qed.

End Validity.

(** ** Claims about the key hasher *)

(** C2, as stated, fails: the pairs [("a", "bc")] and [("ab", "c")] are
    distinct and valid, and their hashed keys are equal. *)
Lemma getKeyHash_collision :
  ¬ (∀ p1 k1 p2 k2 : string,
       p1 ≠ "" → k1 ≠ "" → p2 ≠ "" → k2 ≠ "" → (p1, k1) ≠ (p2, k2) →
       (getKeyHash p1 k1).1 ≠ (getKeyHash p2 k2).1).
Proof.
  intros H. by apply (H "a" "bc" "ab" "c").
Qed.

(** C2, amended: the hashed key of a valid pair is a function of the pair
    (identical inputs give the identical output) that depends on the
    concatenation [extensionId + rawKey] only: pairs with the same
    concatenation get the same hashed key, and two valid pairs get the
    same hashed key exactly when the FNV-128a digests of their
    concatenations are equal. *)
Theorem getKeyHash_by_concatenation (p1 k1 p2 k2 : string) :
  p1 ≠ "" → k1 ≠ "" → p2 ≠ "" → k2 ≠ "" →
  (p1 = p2 → k1 = k2 → getKeyHash p1 k1 = getKeyHash p2 k2) ∧
  (p1 +:+ k1 = p2 +:+ k2 → getKeyHash p1 k1 = getKeyHash p2 k2) ∧
  (getKeyHash p1 k1 = getKeyHash p2 k2 ↔
   Write128a New128a (bytes (p1 +:+ k1)) = Write128a New128a (bytes (p2 +:+ k2))).
Proof.
  intros Hp1 Hk1 Hp2 Hk2.
  rewrite !getKeyHash_ok by done.
  split; [by intros -> ->|]. split; [by intros ->|].
  split; [|by intros ->].
  intros Heq. apply pair_equal_spec in Heq as [Heq _].
  apply EncodeToString_inj in Heq; [by apply Sum128a_inj | |]; apply be_bytes_range.
Qed.

Lemma getKeyHash_by_concatenation_witness :
  getKeyHash "a" "bc" = getKeyHash "ab" "c".
Proof.
  apply (getKeyHash_by_concatenation "a" "bc" "ab" "c"); [done..|reflexivity].
Defined.

(** C9: with an empty extension id or an empty key the hasher fails with
    an invalid-argument error, and [SetPluginKey], [GetPluginKey] and
    [DeletePluginKey] return that error leaving the application, and with
    it the store, as it was; with both non-empty the hasher succeeds. *)
Theorem getKeyHash_invalid_argument (pluginId key : string) :
  (pluginId = "" ∨ key = "" →
   ∃ e, getKeyHash pluginId key = ("", Some e) ∧ InvalidArgument e ∧
     ∀ (a : App) (value : list Z),
       SetPluginKey pluginId key value a = (Some e, a) ∧
       GetPluginKey pluginId key a = ((None, Some e), a) ∧
       DeletePluginKey pluginId key a = (Some e, a)) ∧
  (pluginId ≠ "" → key ≠ "" →
   ∃ hash, getKeyHash pluginId key = (hash, None) ∧ String.length hash = 24%nat).
Proof.
  split.
  - intros Hempty.
    assert (∃ e, getKeyHash pluginId key = ("", Some e) ∧ InvalidArgument e) as (e & He & Hinv).
    { unfold getKeyHash. destruct (String.length pluginId =? 0)%nat eqn:Ep.
      - eexists. split; [done|]. split; simpl; auto.
      - destruct (String.length key =? 0)%nat eqn:Ek.
        + eexists. split; [done|]. split; simpl; auto.
        + destruct Hempty as [-> | ->]; simpl in *; discriminate. }
    exists e. split; [done|]. split; [done|]. intros a value.
    unfold SetPluginKey, GetPluginKey, DeletePluginKey. by rewrite He.
  - intros Hp Hk. eexists. split; [by apply getKeyHash_ok|].
    apply EncodeToString_16, be_bytes_length.
Qed.

Lemma getKeyHash_invalid_argument_witness :
  (∃ e, getKeyHash "" "key" = ("", Some e) ∧ InvalidArgument e ∧
     ∀ (a : App) (value : list Z),
       SetPluginKey "" "key" value a = (Some e, a) ∧
       GetPluginKey "" "key" a = ((None, Some e), a) ∧
       DeletePluginKey "" "key" a = (Some e, a)) ∧
  (∃ hash, getKeyHash "jira" "key" = (hash, None) ∧ String.length hash = 24%nat).
Proof.
  split.
  - apply (proj1 (getKeyHash_invalid_argument "" "key")). by left.
  - by apply (proj2 (getKeyHash_invalid_argument "jira" "key")).
Defined.

(** ** The plugin store *)

Section Store.

Lemma enter_issued (st : Statement) (db : SqlStore) :
  Issued (enter st db).2 = Issued db ++ [st] ∧
  DriverName (enter st db).2 = DriverName db ∧
  Schedule (enter st db).2 = tail (Schedule db) ∧
  (enter st db).1 = Fault (turn 0 db) ∧
  Rows (enter st db).2 = foldl commit (Rows db) (Rivals (turn 0 db)).
Proof. unfold enter, turn. destruct (Schedule db) as [|t rest]; simpl; auto. Qed.


Lemma set_store_id (a : App) : set_store (Store a) a = a.
Proof. by destruct a. Qed.




Lemma SetPluginKey_store (pluginId key : string) (value : list Z) (a : App) :
  pluginId ≠ "" → key ≠ "" →
  let kv := {| Key := (getKeyHash pluginId key).1; Model.Value := value |} in
  (SetPluginKey pluginId key value a).1 = Err (SaveOrUpdate kv (Store a)).1 ∧
  Store (SetPluginKey pluginId key value a).2 = (SaveOrUpdate kv (Store a)).2 ∧
  (Err (SaveOrUpdate kv (Store a)).1 = None →
   (SetPluginKey pluginId key value a).2 = set_store (SaveOrUpdate kv (Store a)).2 a).
Proof.
  intros Hp Hk. unfold SetPluginKey. rewrite getKeyHash_ok by done.
  cbv zeta. unfold fst at 1 2 3 4.
  destruct (SaveOrUpdate _ (Store a)) as [result ps].
  destruct (Err result) eqn:E; simpl; rewrite ?E; auto. split; [done|]. split; [done|]. done.
Qed.



(** C10: with a driver that is neither PostgreSQL nor MySQL,
    [SaveOrUpdate] of a valid record sends no statement and changes no
    row, yet reports success with the record as data; so [SetPluginKey]
    of a valid pair returns no error and leaves the application as it
    was. *)
Theorem SaveOrUpdate_unrecognized_driver (ps : SqlStore) :
  DriverName ps ≠ DATABASE_DRIVER_POSTGRES → DriverName ps ≠ DATABASE_DRIVER_MYSQL →
  (∀ kv, IsValid kv = None → SaveOrUpdate kv ps = (done_with (DataKeyValue kv), ps)) ∧
  (∀ (a : App) (pluginId key : string) (value : list Z),
     Store a = ps → pluginId ≠ "" → key ≠ "" →
     SetPluginKey pluginId key value a = (None, a)).
Proof.
  intros Hpg Hmy.
  assert (∀ kv, IsValid kv = None → SaveOrUpdate kv ps = (done_with (DataKeyValue kv), ps)) as Hsave.
  { intros kv Hvalid. unfold SaveOrUpdate. rewrite Hvalid.
    destruct (decide _); [done|]. destruct (decide _); done. }
  split; [done|]. intros a pluginId key value <- Hp Hk.
  pose proof (SetPluginKey_store pluginId key value a Hp Hk) as (Herr & _ & Hrest).
  rewrite Hsave in Herr, Hrest by by apply hashed_key_valid.
  simpl in Herr, Hrest. specialize (Hrest eq_refl). rewrite set_store_id in Hrest.
  destruct (SetPluginKey pluginId key value a). simpl in *. congruence.
Qed.

Lemma foldl_commit_other (rivals : list PluginKeyValue) (rows : gmap string (list Z)) (h : string) :
  (∀ kv, kv ∈ rivals → Key kv ≠ h) → foldl commit rows rivals !! h = rows !! h.
Proof.
  revert rows. induction rivals as [|kv rivals IH]; intros rows Hne; simpl; [done|].
  rewrite IH by (intros; apply Hne; by right).
  unfold commit. apply lookup_insert_ne. apply Hne. by left.
Qed.

(** C7: for a valid pair, [GetPluginKey] of a key that is absent when the
    select runs returns a [nil] value and no error; [DeletePluginKey]
    succeeds whether the key is present or not, and changes no row when
    it is absent; a driver fault in either surfaces as a storage error;
    and after a successful delete, an undisturbed [GetPluginKey] reports
    the key as absent. *)
Theorem plugin_key_absent_not_error (pluginId key : string) (a : App) :
  pluginId ≠ "" → key ≠ "" →
  let hash := (getKeyHash pluginId key).1 in
  let sel := enter (StSelect hash) (Store a) in
  let del := enter (StDelete hash) (Store a) in
  (sel.1 = None → Rows sel.2 !! hash = None →
     GetPluginKey pluginId key a = ((None, None), set_store sel.2 a)) ∧
  (∀ err, sel.1 = Some err → err ≠ ErrNoRows →
     ∃ e, (GetPluginKey pluginId key a).1 = (None, Some e) ∧ StorageError e) ∧
  (del.1 = None →
     ∃ a1, DeletePluginKey pluginId key a = (None, a1) ∧
       Rows (Store a1) = delete hash (Rows del.2) ∧
       (Rows del.2 !! hash = None → Rows (Store a1) = Rows del.2)) ∧
  (∀ err, del.1 = Some err →
     ∃ e, (DeletePluginKey pluginId key a).1 = Some e ∧ StorageError e) ∧
  (∀ a1, DeletePluginKey pluginId key a = (None, a1) →
     Fault (turn 0 (Store a1)) = None →
     (∀ kv, kv ∈ Rivals (turn 0 (Store a1)) → Key kv ≠ hash) →
     ∃ a2, GetPluginKey pluginId key a1 = ((None, None), a2)).
Proof.
  intros Hp Hk. unfold GetPluginKey, DeletePluginKey.
  rewrite getKeyHash_ok by done.
  generalize (EncodeToString (Sum128a (Write128a New128a (bytes (pluginId +:+ key))))).
  intros h. cbv zeta. change ((h, @None AppError).1) with h.
  unfold Get, Delete, SelectOne, ExecDelete.
  destruct (enter (StSelect h) (Store a)) as [sfault sdb].
  destruct (enter (StDelete h) (Store a)) as [dfault ddb] eqn:Ed.
  simpl. repeat split.
  - intros -> Hrow. rewrite Hrow. done.
  - intros err -> Hne. destruct (decide (err = ErrNoRows)); [done|]. simpl.
    eexists. split; [done|]. done.
  - intros ->. simpl. eexists. split; [done|]. split; [done|].
    intros Habs. simpl. by apply delete_id.
  - intros err ->. simpl. eexists. split; [done|]. done.
  - intros a1 Hdel F0 Hriv.
    assert (Rows (Store a1) !! h = None) as Hgone.
    { destruct dfault as [err|]; simpl in Hdel; [done|].
      injection Hdel as <-. simpl. apply lookup_delete_eq. }
    pose proof (enter_issued (StSelect h) (Store a1)) as (_ & _ & _ & Hf & Hrows).
    destruct (enter (StSelect h) (Store a1)) as [fault db]; simpl in *.
    rewrite F0 in Hf. subst fault.
    rewrite Hrows, foldl_commit_other, Hgone by done. simpl. eauto.
Qed.

End Store.

(** ** The lifecycle reconciler *)

Section Reconciler.

Import Lifecycle.

Variable fs : FS.

Lemma same_registry_plugins (env env' : Environment) :
  same_registry env env' → Plugins env' fs = Plugins env fs.
Proof. intros (Hs & _). unfold Plugins. by rewrite Hs. Qed.

Lemma installed_elem (id : string) (bundles : list BundleInfo) :
  installed id bundles = true ↔ ∃ p, p ∈ bundles ∧ bundle_id p = id.
Proof.
  unfold installed. rewrite bool_decide_eq_true, list_elem_of_fmap.
  split; intros (p & H1 & H2); exists p; unfold bundle_id in *; simpl in *; auto.
Qed.

(** One turn of the loop, for an installed bundle. *)
Lemma activate_one_spec (env : Environment) (a : App) (p : BundleInfo)
    (bundles : list BundleInfo) :
  Plugins env fs = (bundles, None) → p ∈ bundles →
  ∃ env1 a1 lines,
    activate_one fs (env, a) p = (env1, a1) ∧
    same_registry env env1 ∧ same_app a a1 ∧
    (∀ id, IsPluginActive env1 id =
           if decide (id = bundle_id p) then next_active (Config a) env id
           else IsPluginActive env id) ∧
    Published a1 = Published a ++ notifications (Config a) env p ∧
    Log a1 = Log a ++ lines ∧
    (∀ err, desired (Config a) (bundle_id p) = true →
       IsPluginActive env (bundle_id p) = false →
       OnActivate env (bundle_id p) = Some err → lines = [LogError err]) ∧
    (∀ err, desired (Config a) (bundle_id p) = false →
       IsPluginActive env (bundle_id p) = true →
       OnDeactivate env (bundle_id p) = Some err → lines = [LogError err]).
Proof.
  intros Hplugins Hin.
  assert (installed (bundle_id p) bundles = true) as Hinst by (apply installed_elem; eauto).
  set (id := bundle_id p) in *.
  assert (Enable match PluginStates (Config a) !! id with
                 | Some state => state | None => {| Enable := false |} end
          = desired (Config a) id) as Hflag.
  { unfold desired. by destruct (PluginStates (Config a) !! id). }
  unfold activate_one. fold (bundle_id p). fold id. rewrite Hflag.
  unfold notifications. fold id.
  assert (∀ (b : bool) env1,
    next_active (Config a) env id = b →
    (∀ id', id' ≠ id → IsPluginActive env1 id' = IsPluginActive env id') →
    IsPluginActive env1 id = b →
    ∀ id', IsPluginActive env1 id' =
           if decide (id' = id) then next_active (Config a) env id'
           else IsPluginActive env id') as Hact.
  { intros b env1 Hb Hother Hsame id'. destruct (decide (id' = id)) as [->|Hne]; auto.
    congruence. }
  unfold next_active in *.
  destruct (desired (Config a) id) eqn:Edes, (IsPluginActive env id) eqn:Eact; simpl.
  - (* enabled, active *)
    exists env, a, []. rewrite !app_nil_r. split; [done|]. split; [done|]. split; [done|].
    split; [by apply (Hact true)|]. done.
  - (* enabled, inactive *)
    unfold ActivatePlugin. rewrite Eact, Hplugins, Hinst.
    destruct (OnActivate env id) as [err|] eqn:Eon; simpl.
    + exists env, (l4g (LogError err) a), [LogError err]. rewrite app_nil_r.
      split; [done|]. split; [done|]. split; [done|].
      split; [by apply (Hact false)|]. split; [done|]. split; [done|].
      split; [|done]. intros ? _ _ ?. by simplify_eq.
    + eexists _, _, [_]. split; [done|]. split; [done|].
      split; [by destruct (HasClient (BundleManifest p))|].
      split.
      { apply (Hact true); [reflexivity| |]; unfold IsPluginActive; simpl.
        - intros id' Hne. apply bool_decide_ext.
          rewrite elem_of_union, elem_of_singleton. tauto.
        - apply bool_decide_eq_true. apply elem_of_union_l. by apply elem_of_singleton. }
      unfold lifecycle_event. fold id. rewrite Edes.
      split; [destruct (HasClient (BundleManifest p)); simpl; by rewrite ?app_nil_r|].
      split; [by destruct (HasClient (BundleManifest p))|]. done.
  - (* disabled, active *)
    unfold DeactivatePlugin. rewrite Eact, Hplugins, Hinst. simpl.
    destruct (OnDeactivate env id) as [err|] eqn:Eoff; simpl.
    + exists env, (l4g (LogError err) a), [LogError err]. rewrite app_nil_r.
      split; [done|]. split; [done|]. split; [done|].
      split; [by apply (Hact true)|]. split; [done|]. split; [done|].
      split; [done|]. intros ? _ _ ?. by simplify_eq.
    + eexists _, _, [_]. split; [done|]. split; [done|].
      split; [by destruct (HasClient (BundleManifest p))|].
      split.
      { apply (Hact false); [reflexivity| |]; unfold IsPluginActive; simpl.
        - intros id' Hne. apply bool_decide_ext.
          rewrite elem_of_difference, elem_of_singleton. tauto.
        - apply bool_decide_eq_false. rewrite elem_of_difference, elem_of_singleton. tauto. }
      unfold lifecycle_event. fold id. rewrite Edes.
      split; [destruct (HasClient (BundleManifest p)); simpl; by rewrite ?app_nil_r|].
      split; [by destruct (HasClient (BundleManifest p))|]. done.
  - (* disabled, inactive *)
    exists env, a, []. rewrite !app_nil_r. split; [done|]. split; [done|]. split; [done|].
    split; [by apply (Hact false)|]. done.
Qed.

(** What the loop has done to one plugin is not redone. *)
Lemma next_active_settled (cfg : Model.Config) (env env1 : Environment) (id : string) :
  same_registry env env1 →
  IsPluginActive env1 id = next_active cfg env id →
  next_active cfg env1 id = next_active cfg env id.
Proof.
  intros (_ & Hon & Hoff) Hact. unfold next_active in *. rewrite Hon, Hoff, Hact.
  destruct (desired cfg id), (IsPluginActive env id),
    (bool_decide (OnActivate env id = None)),
    (bool_decide (OnDeactivate env id = None)); done.
Qed.

Lemma next_active_other (cfg : Model.Config) (env env1 : Environment) (id : string) :
  same_registry env env1 →
  IsPluginActive env1 id = IsPluginActive env id →
  next_active cfg env1 id = next_active cfg env id.
Proof.
  intros (_ & Hon & Hoff) Hact. unfold next_active. by rewrite Hon, Hoff, Hact.
Qed.

Lemma notifications_after_step (cfg : Model.Config) (env env1 : Environment)
    (id : string) (l : list BundleInfo) :
  same_registry env env1 →
  (∀ id', IsPluginActive env1 id' =
          if decide (id' = id) then next_active cfg env id' else IsPluginActive env id') →
  flat_map (notifications cfg env1) l =
  flat_map (notifications cfg env) (filter (λ q, bundle_id q ≠ id) l).
Proof.
  intros Hreg Hact. induction l as [|q l IH]; [done|].
  rewrite filter_cons. simpl. rewrite IH. clear IH.
  specialize (Hact (bundle_id q)).
  destruct (decide (bundle_id q ≠ id)) as [Hne|Heq].
  - simpl. f_equal. unfold notifications.
    destruct (decide (bundle_id q = id)); [done|].
    by rewrite Hact, (next_active_other cfg env env1).
  - destruct (decide (bundle_id q = id)) as [Hq|]; [|done].
    unfold notifications at 1.
    rewrite (next_active_settled cfg env env1), Hact by done.
    by rewrite xorb_nilpotent.
Qed.

(** The loop of [ActivatePlugins] over installed bundles. *)
Lemma reconcile_loop (plugins bundles : list BundleInfo) (env : Environment) (a : App) :
  Plugins env fs = (bundles, None) → plugins ⊆ bundles →
  ∃ env' a' lines,
    foldl (activate_one fs) (env, a) plugins = (env', a') ∧
    same_registry env env' ∧ same_app a a' ∧
    (∀ id, IsPluginActive env' id =
           if decide (id ∈ bundle_id <$> plugins) then next_active (Config a) env id
           else IsPluginActive env id) ∧
    Published a' =
      Published a ++ flat_map (notifications (Config a) env) (first_bundles plugins) ∧
    Log a' = Log a ++ lines ∧
    (∀ p err, p ∈ plugins → desired (Config a) (bundle_id p) = true →
       IsPluginActive env (bundle_id p) = false →
       OnActivate env (bundle_id p) = Some err → LogError err ∈ lines) ∧
    (∀ p err, p ∈ plugins → desired (Config a) (bundle_id p) = false →
       IsPluginActive env (bundle_id p) = true →
       OnDeactivate env (bundle_id p) = Some err → LogError err ∈ lines).
Proof.
  revert env a. induction plugins as [|p plugins IH]; intros env a Hplugins Hsub.
  { exists env, a, []. rewrite !app_nil_r. repeat split; try done.
    - intros ? ? H. by apply elem_of_nil in H.
    - intros ? ? H. by apply elem_of_nil in H. }
  destruct (activate_one_spec env a p bundles Hplugins) as
    (env1 & a1 & lines1 & Hstep & Hreg1 & Happ1 & Hact1 & Hpub1 & Hlog1 & Hfail1 & Hfail1');
    [apply Hsub; by left|].
  destruct (IH env1 a1) as
    (env' & a' & lines2 & Hloop & Hreg2 & Happ2 & Hact2 & Hpub2 & Hlog2 & Hfail2 & Hfail2').
  { by rewrite (same_registry_plugins env env1). }
  { intros q Hq. apply Hsub. by right. }
  assert (Config a1 = Config a) as Hcfg by apply Happ1.
  rewrite Hcfg in *.
  exists env', a', (lines1 ++ lines2).
  split.
  { change (foldl (activate_one fs) (env, a) (p :: plugins))
      with (foldl (activate_one fs) (activate_one fs (env, a) p) plugins).
    by rewrite Hstep. }
  split. { destruct Hreg1 as (?&?&?), Hreg2 as (?&?&?). repeat split; congruence. }
  split. { destruct Happ1 as (?&?&?&?), Happ2 as (?&?&?&?). repeat split; congruence. }
  split.
  { intros id. rewrite Hact2, fmap_cons. specialize (Hact1 id).
    destruct (decide (id = bundle_id p)) as [->|Hne];
      destruct (decide (_ ∈ bundle_id <$> plugins)) as [Hin|Hnin];
      destruct (decide (_ ∈ _ :: _)) as [Hin'|Hnin']; try done.
    - by apply next_active_settled.
    - exfalso. apply Hnin'. by left.
    - exfalso. apply Hnin'. by left.
    - by apply next_active_other.
    - exfalso. apply Hnin'. by right.
    - by apply elem_of_cons in Hin' as [?|?]. }
  split.
  { rewrite Hpub2, Hpub1, <- app_assoc. f_equal. simpl. f_equal.
    by apply notifications_after_step. }
  split. { rewrite Hlog2, Hlog1, <- app_assoc. done. }
  split.
  - intros q err [->|Hq]%elem_of_cons Hdes Hina Herr.
    + apply elem_of_app. left. rewrite (Hfail1 err) by done. by left.
    + apply elem_of_app. right. apply (Hfail2 q err); try done.
      * rewrite Hact1. destruct (decide _) as [Heq|]; [|done].
        unfold next_active. by rewrite Hdes, Hina, Herr.
      * destruct Hreg1 as (_ & -> & _). done.
  - intros q err [->|Hq]%elem_of_cons Hdes Hina Herr.
    + apply elem_of_app. left. rewrite (Hfail1' err) by done. by left.
    + apply elem_of_app. right. apply (Hfail2' q err); try done.
      * rewrite Hact1. destruct (decide _) as [Heq|]; [|done].
        unfold next_active. by rewrite Hdes, Hina, Herr.
      * destruct Hreg1 as (_ & _ & ->). done.
Qed.

Lemma flat_map_agree {A B : Type} (f g : A → list B) (l : list A) :
  (∀ x, x ∈ l → f x = g x) → flat_map f l = flat_map g l.
Proof.
  induction l as [|x l IH]; intros Hfg; simpl; [done|].
  rewrite Hfg by by left. f_equal. apply IH. intros y Hy. apply Hfg. by right.
Qed.

Lemma set_env_id (a : App) (env : Environment) :
  PluginEnv a = Some env → set_env (Some env) a = a.
Proof. destruct a; simpl. by intros ->. Qed.

(** A bundle whose plugin is in its desired state is passed over. *)
Lemma activate_one_settled (env : Environment) (a : App) (p : BundleInfo) :
  IsPluginActive env (bundle_id p) = desired (Config a) (bundle_id p) →
  activate_one fs (env, a) p = (env, a).
Proof.
  unfold activate_one, desired. fold (bundle_id p). intros ->.
  by destruct (PluginStates (Config a) !! bundle_id p) as [[[]]|].
Qed.

Lemma reconcile_loop_settled (plugins : list BundleInfo) (env : Environment) (a : App) :
  (∀ p, p ∈ plugins → IsPluginActive env (bundle_id p) = desired (Config a) (bundle_id p)) →
  foldl (activate_one fs) (env, a) plugins = (env, a).
Proof.
  induction plugins as [|p plugins IH]; intros Hall; [done|].
  change (foldl (activate_one fs) (env, a) (p :: plugins))
    with (foldl (activate_one fs) (activate_one fs (env, a) p) plugins).
  rewrite activate_one_settled by (apply Hall; by left).
  apply IH. intros q Hq. apply Hall. by right.
Qed.

Lemma first_bundles_elem (plugins : list BundleInfo) (p : BundleInfo) :
  p ∈ first_bundles plugins → p ∈ plugins.
Proof.
  induction plugins as [|q plugins IH]; simpl; [done|].
  intros [->|Hin]%elem_of_cons; [by left|].
  right. apply IH. by apply list_elem_of_filter in Hin as [_ ?].
Qed.

Lemma next_active_desired (cfg : Model.Config) (env : Environment)
    (plugins : list BundleInfo) (p : BundleInfo) :
  transitions_succeed cfg env plugins → p ∈ plugins →
  next_active cfg env (bundle_id p) = desired cfg (bundle_id p).
Proof.
  intros Hok Hin. destruct (Hok p Hin) as [Hon Hoff]. unfold next_active.
  destruct (desired cfg (bundle_id p)), (IsPluginActive env (bundle_id p)); simpl; try done.
  - by rewrite Hon.
  - by rewrite Hoff.
Qed.

Lemma ActivatePlugins_loop (a : App) (env : Environment) (plugins : list BundleInfo) :
  PluginEnv a = Some env → Plugins env fs = (plugins, None) →
  ActivatePlugins a fs =
    set_env (Some (foldl (activate_one fs) (env, a) plugins).1)
            (foldl (activate_one fs) (env, a) plugins).2.
Proof.
  intros Henv Hplugins. unfold ActivatePlugins. rewrite Henv, Hplugins.
  by destruct (foldl _ _ _).
Qed.

(** C1, amended: when every activation and deactivation that the run
    attempts succeeds, one run of [ActivatePlugins] leaves every installed
    plugin active exactly when its state flag is enabled (a plugin
    without a state entry counts as disabled) and the other identifiers
    as they were, so that an active set made of installed plugins becomes
    the set of the enabled installed plugins; one notification is
    published for each plugin that changes state and whose manifest
    declares a client component, and none for the others; and an
    immediately repeated run returns the application unchanged. *)
Theorem ActivatePlugins_reconciles (a : App) (env : Environment)
    (plugins : list BundleInfo) :
  PluginEnv a = Some env → Plugins env fs = (plugins, None) →
  transitions_succeed (Config a) env plugins →
  ∃ env',
    PluginEnv (ActivatePlugins a fs) = Some env' ∧
    (∀ p, p ∈ plugins →
       IsPluginActive env' (bundle_id p) = desired (Config a) (bundle_id p)) ∧
    (∀ id, id ∉ bundle_id <$> plugins → IsPluginActive env' id = IsPluginActive env id) ∧
    ((∀ id, id ∈ activePlugins env → id ∈ bundle_id <$> plugins) →
     ∀ id, id ∈ activePlugins env' ↔
           id ∈ bundle_id <$> plugins ∧ desired (Config a) id = true) ∧
    Published (ActivatePlugins a fs) =
      Published a ++
      flat_map (transition_notifications (Config a) env) (first_bundles plugins) ∧
    ActivatePlugins (ActivatePlugins a fs) fs = ActivatePlugins a fs.
Proof.
  intros Henv Hplugins Hok.
  destruct (reconcile_loop plugins plugins env a Hplugins) as
    (env' & a' & lines & Hloop & Hreg & Happ & Hact & Hpub & _); [done|].
  rewrite (ActivatePlugins_loop a env plugins) by done. rewrite Hloop. simpl.
  assert (∀ p, p ∈ plugins →
            IsPluginActive env' (bundle_id p) = desired (Config a) (bundle_id p)) as Hall.
  { intros p Hp. rewrite Hact, decide_True by (apply list_elem_of_fmap; eauto).
    by apply (next_active_desired _ _ plugins). }
  exists env'. split; [done|]. split; [done|].
  split. { intros id Hid. by rewrite Hact, decide_False. }
  split.
  { intros Hinst id. specialize (Hact id). unfold IsPluginActive in Hact.
    destruct (decide (id ∈ bundle_id <$> plugins)) as [Hin|Hnin].
    - apply list_elem_of_fmap in Hin as Hin'. destruct Hin' as (p & -> & Hp).
      rewrite (next_active_desired _ _ plugins) in Hact by done.
      rewrite <- Hact, bool_decide_eq_true. tauto.
    - split; [|tauto]. intros Hid. exfalso. apply Hnin, Hinst.
      eapply bool_decide_eq_true_1. rewrite <- Hact. by apply bool_decide_eq_true_2. }
  split.
  { rewrite Hpub. f_equal. apply flat_map_agree. intros p Hp.
    apply first_bundles_elem in Hp.
    unfold notifications, transition_notifications.
    by rewrite (next_active_desired _ _ plugins). }
  destruct Happ as (Hcfg & _).
  rewrite (ActivatePlugins_loop _ env' plugins); simpl; try done.
  - rewrite reconcile_loop_settled; [done|]. simpl. intros p Hp. rewrite Hcfg. by apply Hall.
  - by rewrite (same_registry_plugins env env').
Qed.

(** C8: whatever fails, every installed plugin ends in the state that its
    own attempt gives it; a plugin whose activation or deactivation fails
    keeps its state, no notification of the run names it, and its error
    is among the lines that the run logs; [ActivatePlugins] itself always
    returns. *)
Theorem ActivatePlugins_failures_isolated (a : App) (env : Environment)
    (plugins : list BundleInfo) :
  PluginEnv a = Some env → Plugins env fs = (plugins, None) →
  ∃ env' events lines,
    PluginEnv (ActivatePlugins a fs) = Some env' ∧
    Published (ActivatePlugins a fs) = Published a ++ events ∧
    Log (ActivatePlugins a fs) = Log a ++ lines ∧
    (∀ p, p ∈ plugins →
       IsPluginActive env' (bundle_id p) = next_active (Config a) env (bundle_id p)) ∧
    (∀ p err, p ∈ plugins → desired (Config a) (bundle_id p) = true →
       IsPluginActive env (bundle_id p) = false →
       OnActivate env (bundle_id p) = Some err →
       IsPluginActive env' (bundle_id p) = false ∧ LogError err ∈ lines ∧
       ∀ e, e ∈ events → Id (EventManifest e) ≠ bundle_id p) ∧
    (∀ p err, p ∈ plugins → desired (Config a) (bundle_id p) = false →
       IsPluginActive env (bundle_id p) = true →
       OnDeactivate env (bundle_id p) = Some err →
       IsPluginActive env' (bundle_id p) = true ∧ LogError err ∈ lines ∧
       ∀ e, e ∈ events → Id (EventManifest e) ≠ bundle_id p).
Proof.
  intros Henv Hplugins.
  destruct (reconcile_loop plugins plugins env a Hplugins) as
    (env' & a' & lines & Hloop & Hreg & Happ & Hact & Hpub & Hlog & Hfail & Hfail'); [done|].
  rewrite (ActivatePlugins_loop a env plugins) by done. rewrite Hloop. simpl.
  assert (∀ p, p ∈ plugins →
            IsPluginActive env' (bundle_id p) = next_active (Config a) env (bundle_id p)) as Hall.
  { intros p Hp. by rewrite Hact, decide_True by (apply list_elem_of_fmap; eauto). }
  assert (∀ p e, next_active (Config a) env (bundle_id p) = IsPluginActive env (bundle_id p) →
            e ∈ flat_map (notifications (Config a) env) (first_bundles plugins) →
            Id (EventManifest e) ≠ bundle_id p) as Hquiet.
  { intros p e Hsame He Heq. apply list_elem_of_In, in_flat_map in He as (q & _ & He).
    apply list_elem_of_In in He. unfold notifications in He.
    destruct (xorb _ _ && _) eqn:Ex; [|by apply elem_of_nil in He].
    apply list_elem_of_singleton in He as ->. simpl in Heq.
    change (bundle_id q = bundle_id p) in Heq. rewrite Heq, Hsame, xorb_nilpotent in Ex.
    done. }
  exists env', (flat_map (notifications (Config a) env) (first_bundles plugins)), lines.
  split; [done|]. split; [done|]. split; [done|]. split; [done|].
  split.
  - intros p err Hp Hdes Hina Herr.
    assert (next_active (Config a) env (bundle_id p) = false) as Hnext.
    { unfold next_active. by rewrite Hdes, Hina, Herr. }
    split; [by rewrite Hall|]. split; [by apply (Hfail p)|].
    intros e He. apply Hquiet; [congruence|done].
  - intros p err Hp Hdes Hina Herr.
    assert (next_active (Config a) env (bundle_id p) = true) as Hnext.
    { unfold next_active. by rewrite Hdes, Hina, Herr. }
    split; [by rewrite Hall|]. split; [by apply (Hfail' p)|].
    intros e He. apply Hquiet; [congruence|done].
Qed.

End Reconciler.

(** ** The bundle installer *)

Section Installer.

Import Samples Lifecycle.

Lemma TempDir_fresh (prefix : string) (suffixes : list string) (fs fs1 : FS)
    (tmpDir : list string) :
  TempDir prefix suffixes fs = ((tmpDir, None), fs1) →
  free tmpDir fs = true ∧ fs1 = <[tmpDir := Dir]> fs.
Proof.
  induction suffixes as [|sfx rest IH]; simpl; [done|].
  destruct (free (Join TempRoot (prefix +:+ sfx)) fs) eqn:Efree; [|done].
  intros [= <- <-]. done.
Qed.

Lemma TempDir_first (prefix sfx : string) (rest : list string) (fs : FS) :
  free (Join TempRoot (prefix +:+ sfx)) fs = true →
  TempDir prefix (sfx :: rest) fs =
    ((Join TempRoot (prefix +:+ sfx), None), <[Join TempRoot (prefix +:+ sfx) := Dir]> fs).
Proof. intros Hfree. simpl. by rewrite Hfree. Qed.

Lemma ExtractTarGz_readable (gzipStream : list Member) (dst : list string) (fs : FS) :
  (ExtractTarGz gzipStream dst fs).1 = None →
  ExtractTarGz gzipStream dst fs = (None, (ExtractTarGz gzipStream dst fs).2).
Proof. destruct (ExtractTarGz gzipStream dst fs) as [e fs']. simpl. by intros ->. Qed.

Lemma RemoveAll_free (p : list string) (fs : FS) :
  free p fs = true → RemoveAll p fs = fs.
Proof.
  unfold free, RemoveAll. intros Hfree%bool_decide_eq_true.
  apply map_filter_id. intros q n Hq. simpl. by apply (Hfree q n).
Qed.

Lemma RemoveAll_insert_under (p q : list string) (n : node) (fs : FS) :
  p `prefix_of` q → RemoveAll p (<[q := n]> fs) = RemoveAll p fs.
Proof.
  intros Hpre. unfold RemoveAll. apply map_eq. intros k.
  destruct (decide (k = q)) as [->|Hne].
  - rewrite !map_lookup_filter_None_2; [done| |].
    + right. intros ? _. simpl. tauto.
    + right. intros ? _. simpl. tauto.
  - destruct (decide (p `prefix_of` k)) as [Hk|Hk].
    + rewrite !map_lookup_filter_None_2; [done| |]; right; intros ? _; simpl; tauto.
    + destruct (fs !! k) as [x|] eqn:Ek.
      * rewrite !(map_lookup_filter_Some_2 _ _ k x); try done.
        by rewrite lookup_insert_ne.
      * rewrite !map_lookup_filter_None_2; [done| |]; left; [done|].
        by rewrite lookup_insert_ne.
Qed.

(** Extraction writes below its destination only. *)
Lemma RemoveAll_ExtractTarGz (gzipStream : list Member) (dst : list string) (fs : FS) :
  RemoveAll dst (ExtractTarGz gzipStream dst fs).2 = RemoveAll dst fs.
Proof.
  revert fs. induction gzipStream as [|[name n|] rest IH]; intros fs; simpl; [done| |done].
  rewrite IH. apply RemoveAll_insert_under. by apply prefix_app_r.
Qed.

Lemma free_RemoveAll (p : list string) (fs : FS) : free p (RemoveAll p fs) = true.
Proof.
  unfold free, RemoveAll. apply bool_decide_eq_true. intros q n Hq.
  by apply map_lookup_filter_Some in Hq as [_ ?].
Qed.

(** C6: when the manifest found in the extracted archive carries the
    identifier of a bundle that the environment lists as installed,
    [InstallPlugin] returns the duplicate-id error and leaves the
    filesystem exactly as it was before the call: nothing is copied into
    the search path, and the temporary directory and all that was
    extracted into it are gone. *)
Theorem InstallPlugin_duplicate_id (suffixes : list string) (pluginFile : list Member)
    (a : App) (env : Environment) (fs fs1 fs2 : FS) (tmpDir : list string)
    (dir : list (string * bool)) (manifest : Manifest)
    (bundles : list BundleInfo) (bundle : BundleInfo) :
  PluginEnv a = Some env → PluginSettingsEnable (Config a) = true →
  TempDir "plugintmp" suffixes fs = ((tmpDir, None), fs1) →
  ExtractTarGz pluginFile tmpDir fs1 = (None, fs2) →
  ReadDir tmpDir fs2 = (dir, None) →
  FindManifest (bundle_root tmpDir dir) fs2 = (Some manifest, None) →
  Plugins env fs2 = (bundles, None) →
  bundle ∈ bundles → Id (BundleManifest bundle) = Id manifest →
  InstallPlugin suffixes pluginFile a fs = ((None, Some duplicate_id_error), fs) ∧
  free tmpDir (InstallPlugin suffixes pluginFile a fs).2 = true.
Proof.
  intros Henv Hon Htmp Hextract Hread Hfind Hplugins Hin Hid.
  assert (InstallPlugin suffixes pluginFile a fs = ((None, Some duplicate_id_error), fs)) as Heq.
  { unfold InstallPlugin. rewrite Henv, Hon, Htmp. simpl negb. cbv iota.
    unfold install_from. rewrite Hextract, Hread. cbv zeta. rewrite Hfind, Hplugins.
    assert (existsb (λ b, bool_decide (Id (BundleManifest b) = Id manifest)) bundles = true) as ->.
    { apply existsb_exists. exists bundle. split; [by apply list_elem_of_In|].
      by apply bool_decide_eq_true. }
    f_equal.
    apply TempDir_fresh in Htmp as [Hfree ->].
    replace fs2 with (ExtractTarGz pluginFile tmpDir (<[tmpDir:=Dir]> fs)).2
      by by rewrite Hextract.
    rewrite RemoveAll_ExtractTarGz, RemoveAll_insert_under by done.
    by apply RemoveAll_free. }
  split; [done|]. rewrite Heq. simpl. by apply TempDir_fresh in Htmp as [? _].
Qed.

End Installer.

(** ** The request router *)

Section Router.

Import Samples.

Lemma add_cookies_spec (cookies : list Cookie) (r : Request) :
  let r' := foldl (λ acc c, if bool_decide (Name c ≠ SESSION_COOKIE_TOKEN)
                            then AddCookie c acc else acc) r cookies in
  Cookies r' = Cookies r ++ filter (λ c, Name c ≠ SESSION_COOKIE_TOKEN) cookies ∧
  Header r' = Header r ∧ Query r' = Query r ∧ Vars r' = Vars r ∧ Method r' = Method r.
Proof.
  revert r. induction cookies as [|c cookies IH]; intros r; simpl.
  { by rewrite app_nil_r. }
  destruct (IH (if bool_decide (Name c ≠ SESSION_COOKIE_TOKEN) then AddCookie c r else r))
    as (Hc & Hh & Hq & Hv & Hm).
  rewrite Hc, Hh, Hq, Hv, Hm, filter_cons.
  destruct (decide (Name c ≠ SESSION_COOKIE_TOKEN)) as [Hne|Heq].
  - rewrite bool_decide_eq_true_2 by done. simpl. by rewrite <- app_assoc.
  - rewrite bool_decide_eq_false_2 by done. done.
Qed.

(** What the sanitising step leaves of a request. *)
Lemma strip_credentials_spec (r : Request) :
  Header (strip_credentials r) = delete "Referer" (delete HEADER_AUTH (Header r)) ∧
  Cookies (strip_credentials r) = filter (λ c, Name c ≠ SESSION_COOKIE_TOKEN) (Cookies r) ∧
  Query (strip_credentials r) = delete "access_token" (Query r) ∧
  Vars (strip_credentials r) = Vars r ∧ Method (strip_credentials r) = Method r.
Proof.
  unfold strip_credentials.
  destruct (add_cookies_spec (Cookies r) (HeaderDel "Cookie" r)) as (Hc & Hh & Hq & Hv & Hm).
  cbv zeta. unfold HeaderDel at 1 2.
  destruct (decide (HEADER_AUTH = "Cookie")) as [Hbad|_]; [done|].
  destruct (decide ("Referer" = "Cookie")) as [Hbad|_]; [done|].
  simpl. rewrite Hc, Hh, Hq, Hv, Hm. done.
Qed.

Lemma attach_identity_keeps (a : App) (token : string) (r r1 : Request) :
  attach_identity a token r = Some r1 →
  Cookies r1 = Cookies r ∧ Query r1 = Query r ∧ Vars r1 = Vars r.
Proof.
  unfold attach_identity. destruct (negb _); [|by intros [= <-]].
  destruct (GetSession a token) as [[s|] [err|]]; by intros [= <-].
Qed.

(** C5: the request handed to the hook dispatcher has no [Authorization]
    header, no cookie named [MMAUTHTOKEN] while the other cookies are
    kept in their order, and no [access_token] query parameter while the
    other parameters are kept, from whichever place the token was
    taken. *)
Theorem ServePluginRequest_strips_credentials (a : App) (r r' : Request) (plugin_id : string) :
  (ServePluginRequest a r).1 = Dispatched plugin_id r' →
  Header r' !! HEADER_AUTH = None ∧
  (∀ c, c ∈ Cookies r' → Name c ≠ SESSION_COOKIE_TOKEN) ∧
  Cookies r' = filter (λ c, Name c ≠ SESSION_COOKIE_TOKEN) (Cookies r) ∧
  Query r' !! "access_token" = None ∧
  (∀ key, key ≠ "access_token" → Query r' !! key = Query r !! key).
Proof.
  unfold ServePluginRequest.
  destruct (PluginEnv a) as [env|]; [|done].
  destruct (negb _); [done|].
  destruct (request_token r) as [token|]; [|done].
  destruct (attach_identity a token r) as [r1|] eqn:Eid; [|done].
  simpl. intros [= _ <-].
  apply attach_identity_keeps in Eid as (Hc & Hq & _).
  destruct (strip_credentials_spec r1) as (Hh' & Hc' & Hq' & _).
  rewrite Hh', Hc', Hq', Hc, Hq.
  split.
  { rewrite lookup_delete_ne by done. apply lookup_delete_eq. }
  split. { intros c Hin. by apply list_elem_of_filter in Hin as [? _]. }
  split; [done|]. split; [apply lookup_delete_eq|].
  intros key Hne. by apply lookup_delete_ne.
Qed.

Lemma prefix_length (p s : string) :
  String.prefix p s = true → (String.length p ≤ String.length s)%nat.
Proof.
  revert s. induction p as [|c p IH]; intros s; simpl; [lia|].
  destruct s as [|d s]; simpl; [done|]. destruct (Ascii.ascii_dec c d); [|done].
  intros H%IH. lia.
Qed.

Lemma map_string_length (f : ascii → ascii) (s : string) :
  String.length (map_string f s) = String.length s.
Proof. induction s; simpl; auto. Qed.

Lemma slice_from_in_range (n : nat) (s : string) :
  (n ≤ String.length s)%nat → is_Some (slice_from n s).
Proof.
  revert s. induction n as [|n IH]; intros s Hn; simpl; [done|].
  destruct s; simpl in *; [lia|]. apply IH. lia.
Qed.

(** The slices that extract the token are in range: the extraction never
    panics. *)
Lemma request_token_total (r : Request) : is_Some (request_token r).
Proof.
  unfold request_token, HasPrefix.
  destruct (String.prefix _ (ToUpper _)) eqn:Eb.
  { apply slice_from_in_range. apply prefix_length in Eb.
    unfold ToUpper in Eb. rewrite map_string_length in Eb. simpl in *. lia. }
  destruct (String.prefix _ (ToLower _)) eqn:Et.
  { apply slice_from_in_range. apply prefix_length in Et.
    unfold ToLower in Et. rewrite map_string_length in Et. simpl in *. lia. }
  destruct (CookieNamed r SESSION_COOKIE_TOKEN); [|done].
  by destruct (_ || _).
Qed.

Lemma strip_credentials_user_id (r : Request) :
  Header (strip_credentials r) !! "Mattermost-User-Id" = Header r !! "Mattermost-User-Id".
Proof.
  destruct (strip_credentials_spec r) as (-> & _).
  by rewrite !lookup_delete_ne.
Qed.

(** C4, which the code does not meet: the identity step tests
    [err != nil] where [err == nil] is meant.  With a token that resolves
    to a session and no error, the request is dispatched without the
    [Mattermost-User-Id] header; with a token whose resolution fails and
    yields no session, the handler panics and nothing is dispatched. *)
Theorem ServePluginRequest_identity_inverted (a : App) (env : Environment)
    (r : Request) (token : string) :
  PluginEnv a = Some env → PluginSettingsEnable (Config a) = true →
  request_token r = Some token → token ≠ "" →
  (∀ s, GetSession a token = (Some s, None) →
     ∃ r', (ServePluginRequest a r).1 = Dispatched (default "" (Vars r !! "plugin_id")) r' ∧
           Header r' !! "Mattermost-User-Id" = None) ∧
  (∀ err, GetSession a token = (None, Some err) →
     (ServePluginRequest a r).1 = Panicked).
Proof.
  intros Henv Hon Htok Hne. unfold ServePluginRequest. rewrite Henv, Hon, Htok. simpl negb.
  cbv iota. unfold attach_identity. rewrite bool_decide_eq_false_2 by done. simpl negb.
  cbv iota. split.
  - intros s ->. exists (strip_credentials (HeaderDel "Mattermost-User-Id" r)). split.
    + cbn [fst].
      destruct (strip_credentials_spec (HeaderDel "Mattermost-User-Id" r))
        as (_ & _ & _ & Hv & _).
      rewrite Hv. unfold HeaderDel. by destruct (decide _).
    + rewrite strip_credentials_user_id. unfold HeaderDel.
      destruct (decide _) as [?|_]; [done|]. simpl. apply lookup_delete_eq.
  - by intros err ->.
Qed.

(** With the subsystem enabled, a request is dispatched unless the
    resolution of its token fails without a session, in which case the
    handler panics. *)
Lemma ServePluginRequest_outcome (a : App) (env : Environment) (r : Request) :
  PluginEnv a = Some env → PluginSettingsEnable (Config a) = true →
  ∃ token, request_token r = Some token ∧
    ((∃ r', (ServePluginRequest a r).1 = Dispatched (default "" (Vars r !! "plugin_id")) r') ∨
     ((ServePluginRequest a r).1 = Panicked ∧ token ≠ "" ∧
      ∃ err, GetSession a token = (None, Some err))).
Proof.
  intros Henv Hon. destruct (request_token_total r) as [token Htok].
  exists token. split; [done|].
  unfold ServePluginRequest. rewrite Henv, Hon, Htok. simpl negb. cbv iota.
  assert (∀ r1, Vars (strip_credentials r1) = Vars r1) as Hv.
  { intros r1. by destruct (strip_credentials_spec r1) as (_ & _ & _ & -> & _). }
  destruct (attach_identity a token r) as [r1|] eqn:Eid.
  - left. exists (strip_credentials r1). cbn [fst].
    apply attach_identity_keeps in Eid as (_ & _ & Hr1). by rewrite Hv, Hr1.
  - right. split; [done|]. unfold attach_identity in Eid.
    destruct (decide (token = "")) as [->|Hne]; [done|].
    rewrite bool_decide_eq_false_2 in Eid by done. simpl in Eid.
    destruct (GetSession a token) as [[s|] [err|]]; try done. eauto.
Qed.

End Router.

(** ** The claims at sample inputs *)

Section SampleRuns.

Import Samples Lifecycle.

(** The sample disk lists its two bundles in the order of their names. *)
Example Plugins_disk :
  Plugins (registry None) disk = ([jira_bundle; zoom_bundle], None).
Proof. vm_compute. reflexivity. Qed.

(** One run on the sample server: [jira] is activated and announced,
    [zoom], which has no client component, is deactivated silently. *)
Example ActivatePlugins_sample_run :
  Published (ActivatePlugins (server None (table "postgres" [])) disk) =
    [ {| Event := "plugin_activated";
         EventManifest := {| Id := "jira"; Backend := None;
                             Webapp := Some "webapp/bundle.js" |} |} ] ∧
  Log (ActivatePlugins (server None (table "postgres" [])) disk) =
    [ LogInfo "Activated jira plugin"; LogInfo "Deactivated zoom plugin" ] ∧
  (activePlugins <$> PluginEnv (ActivatePlugins (server None (table "postgres" [])) disk)) =
    Some {["jira"]}.
Proof. vm_compute. auto. Qed.

(** The same run when every startup fails: the failure is logged, nothing
    is published, and [zoom] is deactivated all the same. *)
Example ActivatePlugins_failing_run :
  Published (ActivatePlugins (server (Some "startup failed") (table "postgres" [])) disk) = [] ∧
  Log (ActivatePlugins (server (Some "startup failed") (table "postgres" [])) disk) =
    [ LogError "startup failed"; LogInfo "Deactivated zoom plugin" ] ∧
  (activePlugins <$>
     PluginEnv (ActivatePlugins (server (Some "startup failed") (table "postgres" [])) disk)) =
    Some ∅.
Proof. vm_compute. auto. Qed.

(** The three places a token is taken from, in their order of
    precedence. *)
Example request_token_sources :
  request_token request = Some "s3cr3t" ∧
  request_token (HeaderSet "Authorization" "Token: abc" request) = Some " abc" ∧
  request_token (HeaderDel "Authorization" request) = Some "s3cr3t" ∧
  request_token (set_cookies [] (HeaderDel "Authorization" request)) = Some "s3cr3t" ∧
  request_token stale_request = Some "expired".
Proof. vm_compute. auto. Qed.

(** The race on PostgreSQL: the update finds no row, a concurrent session
    inserts the key, the insert is refused, and the call reports success
    with the rival's value in the table. *)
Example SaveOrUpdate_race :
  let '(result, ps) :=
    SaveOrUpdate {| Key := "k"; Model.Value := [1] |}
      (table "postgres" [ {| Key := "k"; Model.Value := [9] |} ]) in
  Err result = None ∧
  Issued ps = [ StUpdate {| Key := "k"; Model.Value := [1] |};
                StInsert {| Key := "k"; Model.Value := [1] |} ] ∧
  Rows ps !! "k" = Some [9].
Proof. vm_compute. auto. Qed.

(** C1, as stated, fails: [jira] is installed, enabled and inactive, its
    startup fails, and after the run it is still inactive. *)
Lemma ActivatePlugins_startup_failure :
  ¬ (∀ (fs : FS) (a : App) (env : Environment) (plugins : list BundleInfo),
       PluginEnv a = Some env → Plugins env fs = (plugins, None) →
       ∃ env', PluginEnv (ActivatePlugins a fs) = Some env' ∧
         ∀ p, p ∈ plugins →
           IsPluginActive env' (bundle_id p) = desired (Config a) (bundle_id p)).
Proof.
  intros H.
  destruct (H disk (server (Some "startup failed") (table "postgres" []))
              (registry (Some "startup failed")) [jira_bundle; zoom_bundle])
    as (env' & Henv & Hall); [reflexivity | by vm_compute |].
  specialize (Hall jira_bundle ltac:(by left)).
  vm_compute in Henv. injection Henv as <-. by vm_compute in Hall.
Qed.

(** C1, amended, at the sample server: [jira] is activated, [zoom]
    deactivated, and a second run changes nothing. *)
Lemma ActivatePlugins_reconciles_witness :
  PluginEnv (server None (table "postgres" [])) = Some (registry None) ∧
  Plugins (registry None) disk = ([jira_bundle; zoom_bundle], None) ∧
  transitions_succeed settings (registry None) [jira_bundle; zoom_bundle] ∧
  ActivatePlugins (ActivatePlugins (server None (table "postgres" [])) disk) disk =
    ActivatePlugins (server None (table "postgres" [])) disk.
Proof.
  assert (PluginEnv (server None (table "postgres" [])) = Some (registry None)) as H1
    by reflexivity.
  assert (Plugins (registry None) disk = ([jira_bundle; zoom_bundle], None)) as H2
    by (vm_compute; reflexivity).
  assert (transitions_succeed settings (registry None) [jira_bundle; zoom_bundle]) as H3
    by (intros p _; split; reflexivity).
  destruct (ActivatePlugins_reconciles disk _ _ _ H1 H2 H3) as (env' & _ & _ & _ & _ & _ & Hidem).
  auto.
Defined.

(** C8 at the sample server when every startup fails: [jira] stays
    inactive and [zoom] is deactivated all the same. *)
Lemma ActivatePlugins_failures_isolated_witness :
  PluginEnv (server (Some "startup failed") (table "postgres" [])) =
    Some (registry (Some "startup failed")) ∧
  Plugins (registry (Some "startup failed")) disk = ([jira_bundle; zoom_bundle], None) ∧
  ∃ env', PluginEnv (ActivatePlugins (server (Some "startup failed") (table "postgres" [])) disk)
            = Some env' ∧
          IsPluginActive env' "jira" = false ∧ IsPluginActive env' "zoom" = false.
Proof.
  assert (PluginEnv (server (Some "startup failed") (table "postgres" [])) =
            Some (registry (Some "startup failed"))) as H1 by reflexivity.
  assert (Plugins (registry (Some "startup failed")) disk =
            ([jira_bundle; zoom_bundle], None)) as H2 by (vm_compute; reflexivity).
  destruct (ActivatePlugins_failures_isolated disk _ _ _ H1 H2)
    as (env' & events & lines & Henv & _ & _ & Hall & _).
  split; [done|]. split; [done|]. exists env'. split; [done|]. split.
  - apply (Hall jira_bundle). by left.
  - apply (Hall zoom_bundle). right. by left.
Defined.


(** C10 at the sample server behind a driver called [sqlite3]. *)
Lemma SaveOrUpdate_unrecognized_driver_witness :
  SetPluginKey "jira" "key" [1; 2] (server None (table "sqlite3" [])) =
    (None, server None (table "sqlite3" [])).
Proof.
  by apply (SaveOrUpdate_unrecognized_driver (table "sqlite3" [])).
Defined.

(** C7 at the sample server, whose table is empty. *)
Lemma plugin_key_absent_not_error_witness :
  "jira" ≠ "" ∧ "key" ≠ "" ∧
  (GetPluginKey "jira" "key" (server None (table "postgres" []))).1 = (None, None) ∧
  (DeletePluginKey "jira" "key" (server None (table "postgres" []))).1 = None.
Proof.
  split; [done|]. split; [done|].
  destruct (plugin_key_absent_not_error "jira" "key" (server None (table "postgres" [])))
    as (Hget & _ & Hdel & _); [done..|].
  split.
  - rewrite Hget; reflexivity.
  - destruct Hdel as (a1 & -> & _); reflexivity.
Defined.

(** C6 at the sample disk: the archive carries a manifest called [jira]
    and [jira] is installed. *)
Lemma InstallPlugin_duplicate_id_witness :
  InstallPlugin ["4711"] jira_archive (server None (table "postgres" [])) disk =
    ((None, Some duplicate_id_error), disk).
Proof.
  refine (proj1 (InstallPlugin_duplicate_id ["4711"] jira_archive
           (server None (table "postgres" [])) (registry None) disk
           (<[Join TempRoot ("plugintmp" +:+ "4711") := Dir]> disk)
           (ExtractTarGz jira_archive (Join TempRoot ("plugintmp" +:+ "4711"))
              (<[Join TempRoot ("plugintmp" +:+ "4711") := Dir]> disk)).2
           (Join TempRoot ("plugintmp" +:+ "4711")) [("jira-1.0", true)]
           (manifest_of "jira" false)
           [jira_bundle; zoom_bundle] jira_bundle _ _ _ _ _ _ _ _ _)).
  - reflexivity.
  - reflexivity.
  - apply TempDir_first. vm_compute. reflexivity.
  - apply ExtractTarGz_readable. vm_compute. reflexivity.
  - vm_compute. reflexivity.
  - vm_compute. reflexivity.
  - vm_compute. reflexivity.
  - by left.
  - reflexivity.
Defined.

(** C5 at the sample request, which carries the token in the header, in a
    cookie and in the query string. *)
Lemma ServePluginRequest_strips_credentials_witness :
  ∃ r', (ServePluginRequest (server None (table "postgres" [])) request).1 =
          Dispatched "jira" r' ∧
        Header r' !! HEADER_AUTH = None ∧
        Cookies r' = [ {| Name := "theme"; Value := "dark" |} ] ∧
        Query r' !! "access_token" = None ∧
        Query r' !! "page" = Some ["2"].
Proof.
  exists (strip_credentials (HeaderDel "Mattermost-User-Id" request)).
  assert ((ServePluginRequest (server None (table "postgres" [])) request).1 =
            Dispatched "jira" (strip_credentials (HeaderDel "Mattermost-User-Id" request))) as H
    by (vm_compute; reflexivity).
  destruct (ServePluginRequest_strips_credentials _ _ _ _ H) as (Hh & _ & Hc & Hq & Hk).
  split; [done|]. split; [done|]. split; [by rewrite Hc|]. split; [done|].
  by rewrite Hk.
Defined.

(** C4 at the sample requests: the token [s3cr3t] resolves to the session
    of [alice], and the request is dispatched without her identity; the
    token [expired] resolves to no session, and the handler panics. *)
Lemma ServePluginRequest_identity_inverted_witness :
  (∃ r', (ServePluginRequest (server None (table "postgres" [])) request).1 =
           Dispatched "jira" r' ∧ Header r' !! "Mattermost-User-Id" = None) ∧
  (ServePluginRequest (server None (table "postgres" [])) stale_request).1 = Panicked.
Proof.
  split.
  - apply (proj1 (ServePluginRequest_identity_inverted (server None (table "postgres" []))
                    (registry None) request "s3cr3t" eq_refl eq_refl eq_refl ltac:(done))
             {| UserId := "alice" |}).
    reflexivity.
  - eapply (proj2 (ServePluginRequest_identity_inverted (server None (table "postgres" []))
                     (registry None) stale_request "expired" eq_refl eq_refl eq_refl
                     ltac:(done))).
    reflexivity.
Defined.

End SampleRuns.

(** ** The key-value store, undisturbed *)

Section KeyValue.

Import Admin.

Lemma enter_quiet (st : Statement) (db : SqlStore) :
  quiet db →
  enter st db = (None, {| DriverName := DriverName db; Rows := Rows db;
                          Schedule := []; Issued := Issued db ++ [st] |}).
Proof. unfold quiet, enter. by intros ->. Qed.

(** An undisturbed [SaveOrUpdate] on PostgreSQL or MySQL stores the
    record. *)
Lemma SaveOrUpdate_quiet (kv : PluginKeyValue) (ps : SqlStore) :
  quiet ps → IsValid kv = None →
  DriverName ps = DATABASE_DRIVER_POSTGRES ∨ DriverName ps = DATABASE_DRIVER_MYSQL →
  ∃ ps', SaveOrUpdate kv ps = (done_with (DataKeyValue kv), ps') ∧
         Rows ps' = <[Key kv := Model.Value kv]> (Rows ps) ∧
         quiet ps' ∧ DriverName ps' = DriverName ps.
Proof.
  intros Hq Hvalid Hdriver. unfold SaveOrUpdate. rewrite Hvalid.
  destruct (decide (DriverName ps = DATABASE_DRIVER_POSTGRES)) as [Hpg|Hpg].
  - unfold Update. rewrite enter_quiet by done. simpl.
    destruct (Rows ps !! Key kv) eqn:Erow; simpl.
    + eexists. split; [done|]. done.
    + unfold Insert. rewrite enter_quiet by done. simpl. rewrite Erow. simpl.
      eexists. split; [done|]. done.
  - destruct Hdriver as [?|Hmy]; [done|].
    destruct (decide (DriverName ps = DATABASE_DRIVER_MYSQL)); [|done].
    unfold ExecUpsert. rewrite enter_quiet by done. simpl.
    eexists. split; [done|]. done.
Qed.

Lemma Get_quiet (key : string) (ps : SqlStore) :
  quiet ps →
  ∃ ps', Rows ps' = Rows ps ∧ quiet ps' ∧ DriverName ps' = DriverName ps ∧
    Get key ps =
      (match Rows ps !! key with
       | Some v => done_with (DataKeyValue {| Key := key; Model.Value := v |})
       | None => failed (NewAppError "SqlPluginStore.Get"
                           "store.sql_plugin_store.get.app_error"
                           (key_err key ErrNoRows) StatusNotFound)
       end, ps').
Proof.
  intros Hq. unfold Get, SelectOne. rewrite enter_quiet by done. simpl.
  eexists. split; [|split; [|split]]; [| | |by destruct (Rows ps !! key)]; done.
Qed.

Lemma Delete_quiet (key : string) (ps : SqlStore) :
  quiet ps →
  ∃ ps', Delete key ps = (done_with (DataBool true), ps') ∧
         Rows ps' = delete key (Rows ps) ∧ quiet ps' ∧ DriverName ps' = DriverName ps.
Proof.
  intros Hq. unfold Delete, ExecDelete. rewrite enter_quiet by done. simpl.
  eexists. split; [done|]. done.
Qed.

(** The three operations of the application on an undisturbed store, in
    terms of the row of the hashed key. *)
Lemma SetPluginKey_quiet (pluginId key : string) (value : list Z) (a : App) :
  pluginId ≠ "" → key ≠ "" → quiet (Store a) →
  DriverName (Store a) = DATABASE_DRIVER_POSTGRES ∨
  DriverName (Store a) = DATABASE_DRIVER_MYSQL →
  ∃ a1, SetPluginKey pluginId key value a = (None, a1) ∧
        Rows (Store a1) = <[(getKeyHash pluginId key).1 := value]> (Rows (Store a)) ∧
        quiet (Store a1) ∧ DriverName (Store a1) = DriverName (Store a).
Proof.
  intros Hp Hk Hq Hdriver.
  destruct (SaveOrUpdate_quiet _ (Store a) Hq (hashed_key_valid pluginId key value Hp Hk) Hdriver)
    as (ps' & Hsave & Hrows & Hq' & Hd').
  pose proof (SetPluginKey_store pluginId key value a Hp Hk) as (Herr & Hstore & Hrest).
  cbv zeta in Herr, Hstore, Hrest. rewrite Hsave in Herr, Hstore, Hrest.
  exists (set_store ps' a). split.
  - specialize (Hrest eq_refl). simpl in Herr, Hrest.
    destruct (SetPluginKey pluginId key value a). simpl in *. congruence.
  - done.
Qed.

Lemma GetPluginKey_quiet (pluginId key : string) (a : App) :
  pluginId ≠ "" → key ≠ "" → quiet (Store a) →
  ∃ a1, GetPluginKey pluginId key a =
          ((Rows (Store a) !! (getKeyHash pluginId key).1, None), a1) ∧
        Rows (Store a1) = Rows (Store a) ∧ quiet (Store a1) ∧
        DriverName (Store a1) = DriverName (Store a).
Proof.
  intros Hp Hk Hq. unfold GetPluginKey. rewrite getKeyHash_ok by done.
  generalize (EncodeToString (Sum128a (Write128a New128a (bytes (pluginId +:+ key))))).
  intros h. cbn [fst].
  destruct (Get_quiet h (Store a) Hq) as (ps' & Hrows & Hq' & Hd' & ->).
  exists (set_store ps' a). split; [|done].
  by destruct (Rows (Store a) !! h).
Qed.

Lemma DeletePluginKey_quiet (pluginId key : string) (a : App) :
  pluginId ≠ "" → key ≠ "" → quiet (Store a) →
  ∃ a1, DeletePluginKey pluginId key a = (None, a1) ∧
        Rows (Store a1) = delete (getKeyHash pluginId key).1 (Rows (Store a)) ∧
        quiet (Store a1) ∧ DriverName (Store a1) = DriverName (Store a).
Proof.
  intros Hp Hk Hq. unfold DeletePluginKey. rewrite getKeyHash_ok by done.
  generalize (EncodeToString (Sum128a (Write128a New128a (bytes (pluginId +:+ key))))).
  intros h. cbn [fst].
  destruct (Delete_quiet h (Store a) Hq) as (ps' & -> & Hrows & Hq' & Hd').
  exists (set_store ps' a). done.
Qed.

(** X1: set, get, delete, get: on an undisturbed PostgreSQL or MySQL store,
    whatever the table held before, [GetPluginKey] after [SetPluginKey]
    returns the value just set, and after [DeletePluginKey] it returns a
    [nil] value and no error. *)
Theorem plugin_key_round_trip (pluginId key : string) (value : list Z) (a : App) :
  pluginId ≠ "" → key ≠ "" → quiet (Store a) →
  DriverName (Store a) = DATABASE_DRIVER_POSTGRES ∨
  DriverName (Store a) = DATABASE_DRIVER_MYSQL →
  ∃ a1 a2 a3,
    SetPluginKey pluginId key value a = (None, a1) ∧
    GetPluginKey pluginId key a1 = ((Some value, None), a2) ∧
    DeletePluginKey pluginId key a2 = (None, a3) ∧
    (GetPluginKey pluginId key a3).1 = (None, None).
Proof.
  intros Hp Hk Hq Hdriver.
  destruct (SetPluginKey_quiet pluginId key value a) as (a1 & Hset & Hrows1 & Hq1 & _);
    try done.
  destruct (GetPluginKey_quiet pluginId key a1) as (a2 & Hget & Hrows2 & Hq2 & _); try done.
  destruct (DeletePluginKey_quiet pluginId key a2) as (a3 & Hdel & Hrows3 & Hq3 & _);
    try done.
  destruct (GetPluginKey_quiet pluginId key a3) as (a4 & Hget' & _); try done.
  exists a1, a2, a3. split; [done|].
  rewrite Hget, Hrows1, lookup_insert_eq. split; [done|]. split; [done|].
  by rewrite Hget', Hrows3, lookup_delete_eq.
Qed.

(** X2: two valid pairs with the same concatenation share one entry: what one
    sets the other reads, and what one deletes is gone for the other. *)
Theorem plugin_key_shared_entry (p1 k1 p2 k2 : string) (value : list Z) (a : App) :
  p1 ≠ "" → k1 ≠ "" → p2 ≠ "" → k2 ≠ "" → p1 +:+ k1 = p2 +:+ k2 →
  quiet (Store a) →
  DriverName (Store a) = DATABASE_DRIVER_POSTGRES ∨
  DriverName (Store a) = DATABASE_DRIVER_MYSQL →
  ∃ a1 a2 a3,
    SetPluginKey p1 k1 value a = (None, a1) ∧
    GetPluginKey p2 k2 a1 = ((Some value, None), a2) ∧
    DeletePluginKey p2 k2 a2 = (None, a3) ∧
    (GetPluginKey p1 k1 a3).1 = (None, None).
Proof.
  intros Hp1 Hk1 Hp2 Hk2 Hcat Hq Hdriver.
  assert ((getKeyHash p2 k2).1 = (getKeyHash p1 k1).1) as Hhash.
  { rewrite !getKeyHash_ok by done. cbn [fst]. by rewrite Hcat. }
  destruct (SetPluginKey_quiet p1 k1 value a) as (a1 & Hset & Hrows1 & Hq1 & _); try done.
  destruct (GetPluginKey_quiet p2 k2 a1) as (a2 & Hget & Hrows2 & Hq2 & _); try done.
  destruct (DeletePluginKey_quiet p2 k2 a2) as (a3 & Hdel & Hrows3 & Hq3 & _); try done.
  destruct (GetPluginKey_quiet p1 k1 a3) as (a4 & Hget' & _); try done.
  exists a1, a2, a3. split; [done|].
  rewrite Hget, Hrows1, Hhash, lookup_insert_eq. split; [done|]. split; [done|].
  by rewrite Hget', Hrows3, Hhash, lookup_delete_eq.
Qed.

(** X3: pairs with different hashed keys do not interfere: setting or
    deleting one leaves what [GetPluginKey] returns for the other. *)
Theorem plugin_key_isolation (p1 k1 p2 k2 : string) (value : list Z) (a : App) :
  p1 ≠ "" → k1 ≠ "" → p2 ≠ "" → k2 ≠ "" →
  (getKeyHash p1 k1).1 ≠ (getKeyHash p2 k2).1 →
  quiet (Store a) →
  DriverName (Store a) = DATABASE_DRIVER_POSTGRES ∨
  DriverName (Store a) = DATABASE_DRIVER_MYSQL →
  (GetPluginKey p2 k2 (SetPluginKey p1 k1 value a).2).1 = (GetPluginKey p2 k2 a).1 ∧
  (GetPluginKey p2 k2 (DeletePluginKey p1 k1 a).2).1 = (GetPluginKey p2 k2 a).1.
Proof.
  intros Hp1 Hk1 Hp2 Hk2 Hne Hq Hdriver.
  destruct (SetPluginKey_quiet p1 k1 value a) as (a1 & Hset & Hrows1 & Hq1 & _); try done.
  destruct (DeletePluginKey_quiet p1 k1 a) as (a2 & Hdel & Hrows2 & Hq2 & _); try done.
  destruct (GetPluginKey_quiet p2 k2 a) as (a3 & Hget & _); try done.
  destruct (GetPluginKey_quiet p2 k2 a1) as (a4 & Hget1 & _); try done.
  destruct (GetPluginKey_quiet p2 k2 a2) as (a5 & Hget2 & _); try done.
  rewrite Hset, Hdel. cbn [snd]. rewrite Hget, Hget1, Hget2. cbn [fst].
  rewrite Hrows1, Hrows2, lookup_insert_ne, lookup_delete_ne by done. done.
Qed.

(** X4: the MySQL branch, whatever happens around it: one upsert statement is
    sent; the result is an error exactly when the driver fails, and then
    it is a storage error; on success the table holds the value under
    the key. *)
Theorem SaveOrUpdate_mysql (kv : PluginKeyValue) (ps : SqlStore) :
  DriverName ps = DATABASE_DRIVER_MYSQL → IsValid kv = None →
  Issued (SaveOrUpdate kv ps).2 = Issued ps ++ [StUpsert kv] ∧
  (Err (SaveOrUpdate kv ps).1 = None ↔ Fault (turn 0 ps) = None) ∧
  (∀ e, Err (SaveOrUpdate kv ps).1 = Some e → StorageError e) ∧
  (Err (SaveOrUpdate kv ps).1 = None →
   Data (SaveOrUpdate kv ps).1 = Some (DataKeyValue kv) ∧
   Rows (SaveOrUpdate kv ps).2 !! Key kv = Some (Model.Value kv)).
Proof.
  intros Hmy Hvalid. unfold SaveOrUpdate. rewrite Hvalid.
  destruct (decide (DriverName ps = DATABASE_DRIVER_POSTGRES)) as [Hpg|_].
  { rewrite Hmy in Hpg. done. }
  destruct (decide (DriverName ps = DATABASE_DRIVER_MYSQL)) as [_|?]; [|done].
  unfold ExecUpsert.
  pose proof (enter_issued (StUpsert kv) ps) as (Hi & _ & _ & Hf & _).
  destruct (enter (StUpsert kv) ps) as [[err|] db]; simpl in *; rewrite <- Hf.
  - repeat split; try done. by intros e' [= <-].
  - repeat split; try done. unfold commit. apply lookup_insert_eq.
Qed.

Lemma rune_count_ascii (fuel : nat) (s : list Z) :
  Forall (λ b, b < 0x80) s → (length s ≤ fuel)%nat →
  rune_count fuel s = Z.of_nat (length s).
Proof.
  revert s. induction fuel as [|fuel IH]; intros s Hs Hlen.
  { destruct s; simpl in *; [done|lia]. }
  destruct s as [|c s]; [done|].
  apply Forall_cons in Hs as [Hc Hs].
  cbn [rune_count]. unfold rune_step.
  destruct (Z.ltb_spec c 0x80); [|lia].
  cbn [drop]. rewrite drop_0, IH; [|done|simpl in Hlen; lia]. simpl length. lia.
Qed.

(** X5: which records [IsValid] accepts, in bytes: every key of 1 to 128
    bytes is accepted, and a key of ASCII characters is accepted exactly
    when it has 1 to 128 of them.  A record that is not accepted is
    refused by [SaveOrUpdate] with a bad-request error before any
    statement is sent, whatever the driver. *)
Theorem IsValid_bounds (kv : PluginKeyValue) :
  ((1 ≤ String.length (Key kv) ≤ 128)%nat → IsValid kv = None) ∧
  (ascii_only (Key kv) →
   (IsValid kv = None ↔ (1 ≤ String.length (Key kv) ≤ 128)%nat)) ∧
  (∀ ps e, IsValid kv = Some e →
     StatusCode e = StatusBadRequest ∧ SaveOrUpdate kv ps = (failed e, ps)).
Proof.
  split; [|split].
  - intros [Hlo Hhi]. apply IsValid_short; [|done].
    intros E. rewrite E in Hlo. simpl in Hlo. lia.
  - intros Hascii. unfold IsValid, RuneCountInString, KEY_VALUE_KEY_MAX_RUNES.
    rewrite rune_count_ascii; [|done|by rewrite bytes_length].
    rewrite bytes_length.
    destruct (String.length (Key kv)) as [|n] eqn:En; simpl; [split; [done|lia]|].
    destruct (Z.ltb_spec 128 (Z.of_nat (S n))); split; try done; lia.
  - intros ps e Hinv. split.
    + unfold IsValid in Hinv. destruct (_ || _); [|done]. by injection Hinv as <-.
    + unfold SaveOrUpdate. by rewrite Hinv.
Qed.

End KeyValue.

(** ** The hash function, one byte apart *)

Section OneByteApart.

Import Admin.

Lemma prime128_invertible : (prime128 * prime128_inverse) mod 2 ^ 128 = 1.
Proof. vm_compute. reflexivity. Qed.

(** Multiplying by the FNV prime loses nothing modulo [2^128]. *)
Lemma wrap128_mul_inj (x y : Z) :
  0 ≤ x < 2 ^ 128 → 0 ≤ y < 2 ^ 128 →
  wrap128 (x * prime128) = wrap128 (y * prime128) → x = y.
Proof.
  unfold wrap128. intros Hx Hy Heq.
  assert (∀ z, 0 ≤ z < 2 ^ 128 →
               ((z * prime128) mod 2 ^ 128 * prime128_inverse) mod 2 ^ 128 = z) as Hback.
  { intros z Hz. rewrite Z.mul_mod_idemp_l by lia.
    rewrite <- Z.mul_assoc, <- Z.mul_mod_idemp_r, prime128_invertible by lia.
    rewrite Z.mul_1_r. apply Z.mod_small. lia. }
  rewrite <- (Hback x Hx), <- (Hback y Hy). by rewrite Heq.
Qed.

Lemma lxor_byte_range (h c : Z) :
  0 ≤ h < 2 ^ 128 → is_byte c → 0 ≤ Z.lxor h c < 2 ^ 128.
Proof.
  unfold is_byte. intros Hh Hc.
  assert (0 ≤ Z.lxor h c) as Hnn by (apply Z.lxor_nonneg; lia).
  split; [done|].
  destruct (Z.eq_dec (Z.lxor h c) 0) as [->|Hne]; [lia|].
  apply Z.log2_lt_pow2; [lia|].
  pose proof (Z.log2_lxor h c ltac:(lia) ltac:(lia)) as Hlog.
  assert (Z.log2 h < 128) as Hlh.
  { destruct (Z.eq_dec h 0) as [->|?]; [done|]. apply Z.log2_lt_pow2; lia. }
  assert (Z.log2 c < 128) as Hlc.
  { destruct (Z.eq_dec c 0) as [->|?]; [done|]. apply Z.log2_lt_pow2; lia. }
  lia.
Qed.

Lemma lxor_cancel_r (h1 h2 c : Z) : Z.lxor h1 c = Z.lxor h2 c → h1 = h2.
Proof.
  intros Heq. apply (f_equal (λ x, Z.lxor x c)) in Heq. cbv beta in Heq.
  by rewrite !Z.lxor_assoc, Z.lxor_nilpotent, !Z.lxor_0_r in Heq.
Qed.

Lemma lxor_cancel_l (h c1 c2 : Z) : Z.lxor h c1 = Z.lxor h c2 → c1 = c2.
Proof. rewrite !(Z.lxor_comm h). apply lxor_cancel_r. Qed.

(** The bytes written after two different states keep them different. *)
Lemma Write128a_inj_state (data : list Z) (h1 h2 : Z) :
  Forall is_byte data → 0 ≤ h1 < 2 ^ 128 → 0 ≤ h2 < 2 ^ 128 →
  Write128a h1 data = Write128a h2 data → h1 = h2.
Proof.
  unfold Write128a. revert h1 h2.
  induction data as [|c data IH]; intros h1 h2 Hdata H1 H2 Heq; [done|].
  apply Forall_cons in Hdata as [Hc Hdata]. simpl in Heq.
  apply IH in Heq; [| done | apply Z.mod_pos_bound; lia..].
  apply wrap128_mul_inj in Heq; [|by apply lxor_byte_range..].
  by apply lxor_cancel_r in Heq.
Qed.

Lemma Write128a_app (h : Z) (d1 d2 : list Z) :
  Write128a h (d1 ++ d2) = Write128a (Write128a h d1) d2.
Proof. unfold Write128a. apply foldl_app. Qed.

Lemma bytes_app (s t : string) : bytes (s +:+ t) = bytes s ++ bytes t.
Proof.
  unfold bytes. induction s as [|c s IH]; [done|].
  change (String c s +:+ t) with (String c (s +:+ t)).
  change (list_ascii_of_string (String c ?x)) with (c :: list_ascii_of_string x).
  rewrite !fmap_cons, IH. done.
Qed.

Lemma byte_of_inj (c1 c2 : ascii) : byte_of c1 = byte_of c2 → c1 = c2.
Proof.
  unfold byte_of. intros Heq%N2Z.inj.
  rewrite <- (ascii_N_embedding c1), <- (ascii_N_embedding c2). by rewrite Heq.
Qed.

(** X6: two valid pairs whose concatenations differ in exactly one byte never
    get the same hashed key. *)
Theorem getKeyHash_one_byte_apart (p1 k1 p2 k2 u t : string) (c1 c2 : ascii) :
  p1 ≠ "" → k1 ≠ "" → p2 ≠ "" → k2 ≠ "" →
  p1 +:+ k1 = u +:+ String c1 t → p2 +:+ k2 = u +:+ String c2 t → c1 ≠ c2 →
  (getKeyHash p1 k1).1 ≠ (getKeyHash p2 k2).1.
Proof.
  intros Hp1 Hk1 Hp2 Hk2 H1 H2 Hne Heq.
  rewrite !getKeyHash_ok in Heq by done. cbn [fst] in Heq.
  apply EncodeToString_inj in Heq; [|apply be_bytes_range..].
  apply Sum128a_inj in Heq.
  rewrite H1, H2, !bytes_app in Heq.
  change (bytes (String c1 t)) with (byte_of c1 :: bytes t) in Heq.
  change (bytes (String c2 t)) with (byte_of c2 :: bytes t) in Heq.
  rewrite !Write128a_app in Heq.
  assert (0 ≤ Write128a New128a (bytes u) < 2 ^ 128) as Hu.
  { apply Write128a_range. unfold New128a, offset128. lia. }
  change (Write128a ?h (?c :: ?d)) with
    (Write128a (wrap128 (Z.lxor h c * prime128)) d) in Heq.
  apply Write128a_inj_state in Heq;
    [|apply bytes_range|unfold wrap128; apply Z.mod_pos_bound; lia..].
  apply wrap128_mul_inj in Heq; [|apply lxor_byte_range; auto using byte_of_range..].
  apply lxor_cancel_l, byte_of_inj in Heq. done.
Qed.

End OneByteApart.

(** ** The request router: where the token comes from *)

Section Token.

Import Admin.








End Token.

(** ** The installer, when it fails *)

Section InstallFailure.

Import Admin.

Lemma TempDir_failure (prefix : string) (suffixes : list string) (fs fs1 : FS)
    (d : list string) (err : string) :
  TempDir prefix suffixes fs = ((d, Some err), fs1) → fs1 = fs.
Proof.
  induction suffixes as [|sfx rest IH]; simpl; [by intros [= _ _ <-]|].
  destruct (free _ fs); [done|]. exact IH.
Qed.

(** Short of the final copy, [install_from] writes below the temporary
    directory only. *)
Lemma install_from_failure (tmpDir : list string) (pluginFile : list Member)
    (env : Environment) (fs fs1 : FS) (res : option Manifest) (e : AppError) :
  install_from tmpDir pluginFile env fs = ((res, Some e), fs1) →
  ErrId e ≠ "app.plugin.mvdir.app_error" →
  res = None ∧ RemoveAll tmpDir fs1 = RemoveAll tmpDir fs.
Proof.
  unfold install_from. intros Hrun Hne.
  pose proof (RemoveAll_ExtractTarGz pluginFile tmpDir fs) as Hx.
  destruct (ExtractTarGz pluginFile tmpDir fs) as [[err|] fsx]; simpl in Hx.
  { by injection Hrun as <- <- <-. }
  destruct (ReadDir tmpDir fsx) as [dir [err|]].
  { by injection Hrun as <- <- <-. }
  cbv zeta in Hrun.
  destruct (FindManifest (bundle_root tmpDir dir) fsx) as [[m|] [err|]];
    try by injection Hrun as <- <- <-.
  destruct (Plugins env fsx) as [bundles [err|]].
  { by injection Hrun as <- <- <-. }
  destruct (existsb _ bundles).
  { by injection Hrun as <- <- <-. }
  destruct (CopyDir _ _ fsx) as [[err|] fsc]; [|done].
  injection Hrun as <- <- <-. done.
Qed.

(** X9: whenever [InstallPlugin] fails before its final copy (subsystem
    disabled, temporary directory, extraction, listing, manifest,
    enumeration, duplicate identifier), it returns no manifest and leaves
    the filesystem exactly as it found it: the temporary directory and
    whatever was extracted are gone and nothing else has changed. *)
Theorem InstallPlugin_failure_restores (suffixes : list string) (pluginFile : list Member)
    (a : App) (fs fs' : FS) (res : option Manifest) (e : AppError) :
  InstallPlugin suffixes pluginFile a fs = ((res, Some e), fs') →
  ErrId e ≠ "app.plugin.mvdir.app_error" →
  res = None ∧ fs' = fs.
Proof.
  unfold InstallPlugin. intros Hrun Hne.
  destruct (PluginEnv a) as [env|]; [|by injection Hrun as <- <- <-].
  destruct (negb _); [by injection Hrun as <- <- <-|].
  destruct (TempDir "plugintmp" suffixes fs) as [[tmpDir [err|]] fs1] eqn:Etmp.
  { injection Hrun as <- <- <-. split; [done|]. by apply TempDir_failure in Etmp. }
  apply TempDir_fresh in Etmp as [Hfree ->].
  destruct (install_from tmpDir pluginFile env _) as [[res' err'] fs2] eqn:Erun.
  injection Hrun as <- -> <-.
  apply install_from_failure in Erun as [-> Hrm]; [|done].
  split; [done|].
  rewrite Hrm, RemoveAll_insert_under by done. by apply RemoveAll_free.
Qed.

End InstallFailure.

(** ** The registry read from the disk *)

Section Registry.

Import Lifecycle Admin.






Lemma find_manifest_None (id : string) (plugins : list BundleInfo) :
  find_manifest id plugins = None ↔ id ∉ bundle_id <$> plugins.
Proof.
  induction plugins as [|p plugins IH].
  { simpl. split; [|done]. intros _ H. by apply elem_of_nil in H. }
  rewrite fmap_cons, not_elem_of_cons. cbn [find_manifest]. fold (bundle_id p).
  destruct (decide (bundle_id p = id)) as [<-|Hne].
  - split; [done|]. by intros [? _].
  - rewrite IH. split; [|by intros [_ ?]]. intros ?. split; [congruence|done].
Qed.

(** The manifest that the lookup finds is the one of the first bundle of
    the identifier. *)
Lemma find_manifest_first (id : string) (plugins : list BundleInfo) (m : Manifest) :
  find_manifest id plugins = Some m →
  ∃ q, q ∈ first_bundles plugins ∧ BundleManifest q = m ∧ bundle_id q = id.
Proof.
  induction plugins as [|p plugins IH]; simpl; [done|]. fold (bundle_id p).
  destruct (decide (bundle_id p = id)) as [<-|Hne].
  - intros [= <-]. exists p. split; [by left|done].
  - intros (q & Hq & Hm & Hid)%IH. exists q. split; [|done].
    right. apply list_elem_of_filter. split; [congruence|done].
Qed.

Lemma first_bundles_unique (plugins : list BundleInfo) (q q' : BundleInfo) :
  q ∈ first_bundles plugins → q' ∈ first_bundles plugins →
  bundle_id q = bundle_id q' → q = q'.
Proof.
  induction plugins as [|p plugins IH]; simpl; [by intros H%elem_of_nil|].
  intros [->|Hq]%elem_of_cons [->|Hq']%elem_of_cons Hid; try done.
  - apply list_elem_of_filter in Hq' as [Hne _]. congruence.
  - apply list_elem_of_filter in Hq as [Hne _]. congruence.
  - apply list_elem_of_filter in Hq as [_ Hq], Hq' as [_ Hq']. by apply IH.
Qed.

End Registry.

(** ** Removing a plugin *)

Section Remove.

Import Lifecycle Admin.




Lemma installed_find (id : string) (plugins : list BundleInfo) (m : Manifest) :
  find_manifest id plugins = Some m → installed id plugins = true.
Proof.
  intros Hfind. apply bool_decide_eq_true.
  destruct (decide (id ∈ (Id ∘ BundleManifest) <$> plugins)) as [|Hnin]; [done|].
  apply (find_manifest_None id plugins) in Hnin. congruence.
Qed.



(** X11: a refused removal changes nothing: an identifier that is not
    installed gives the not-installed error, and an active plugin whose
    shutdown fails gives the deactivation error; in both cases the disk,
    the active set and the published events are as before. *)
Theorem RemovePlugin_refuses (id : string) (fault : option string) (a : App)
    (env : Environment) (fs : FS) (plugins : list BundleInfo) :
  PluginEnv a = Some env → PluginSettingsEnable (Config a) = true →
  Plugins env fs = (plugins, None) →
  (id ∉ bundle_id <$> plugins →
   RemovePlugin id fault a fs =
     ((Some (NewAppError "RemovePlugin" "app.plugin.not_installed.app_error"
               "" StatusBadRequest), a), fs)) ∧
  (∀ err, id ∈ bundle_id <$> plugins → IsPluginActive env id = true →
     OnDeactivate env id = Some err →
     RemovePlugin id fault a fs =
       ((Some (NewAppError "RemovePlugin" "app.plugin.deactivate.app_error"
                 err StatusBadRequest), a), fs)).
Proof.
  intros Henv Hon Hplugins. unfold RemovePlugin.
  rewrite Henv, Hon, Hplugins. simpl negb. cbv iota. split.
  - intros Hnin. by rewrite (proj2 (find_manifest_None id plugins)).
  - intros err Hin Hact Hoff.
    destruct (find_manifest id plugins) as [m|] eqn:Efind.
    + unfold DeactivatePlugin.
      rewrite Hact, Hplugins, (installed_find id plugins m Efind), Hoff. simpl.
      by rewrite set_env_id.
    + apply find_manifest_None in Efind. done.
Qed.

End Remove.

(** ** The installer, when it succeeds *)

Section InstallSuccess.

Import Lifecycle Admin.







End InstallSuccess.

(** ** Enabling, disabling and listing plugins *)

Section Enable.

Import Lifecycle Admin.

Lemma desired_set_plugin_state (id id' : string) (b : bool) (cfg : Model.Config) :
  desired (set_plugin_state id b cfg) id' =
  if decide (id' = id) then b else desired cfg id'.
Proof.
  unfold desired, set_plugin_state. simpl.
  destruct (decide (id' = id)) as [->|Hne].
  - by rewrite lookup_insert_eq.
  - by rewrite lookup_insert_ne.
Qed.

(** X13: [EnablePlugin] and [DisablePlugin] are changes of the configuration
    only.  For an identifier that is not installed they return the
    not-installed error and change nothing.  For an installed one they
    set its state flag, leave the flags of the other identifiers, the
    active set, the published events and the log as they were, and
    return an error exactly when saving fails, the flag being set in
    memory all the same. *)
Theorem EnablePlugin_sets_flag (id : string) (saved : option AppError) (a : App)
    (env : Environment) (fs : FS) (plugins : list BundleInfo) :
  PluginEnv a = Some env → PluginSettingsEnable (Config a) = true →
  Plugins env fs = (plugins, None) →
  (id ∉ bundle_id <$> plugins →
   (EnablePlugin id saved a fs).2 = a ∧ (DisablePlugin id saved a fs).2 = a ∧
   ∃ e1 e2, (EnablePlugin id saved a fs).1 = Some e1 ∧ StatusCode e1 = StatusBadRequest ∧
            (DisablePlugin id saved a fs).1 = Some e2 ∧ StatusCode e2 = StatusBadRequest) ∧
  (id ∈ bundle_id <$> plugins →
   (EnablePlugin id saved a fs).2 = UpdateConfig (set_plugin_state id true) a ∧
   (DisablePlugin id saved a fs).2 = UpdateConfig (set_plugin_state id false) a ∧
   desired (Config (EnablePlugin id saved a fs).2) id = true ∧
   desired (Config (DisablePlugin id saved a fs).2) id = false ∧
   (∀ id', id' ≠ id →
      desired (Config (EnablePlugin id saved a fs).2) id' = desired (Config a) id' ∧
      desired (Config (DisablePlugin id saved a fs).2) id' = desired (Config a) id') ∧
   ((EnablePlugin id saved a fs).1 = None ↔ saved = None) ∧
   ((DisablePlugin id saved a fs).1 = None ↔ saved = None) ∧
   (∀ e, (EnablePlugin id saved a fs).1 = Some e ∨ (DisablePlugin id saved a fs).1 = Some e →
         StatusCode e = StatusInternalServerError)).
Proof.
  intros Henv Hon Hplugins. unfold EnablePlugin, DisablePlugin.
  rewrite Henv, Hon, Hplugins. simpl negb. cbv iota. split.
  - intros Hnin. rewrite (proj2 (find_manifest_None id plugins)) by done.
    split; [done|]. split; [done|]. eexists _, _. done.
  - intros Hin. destruct (find_manifest id plugins) as [m|] eqn:Efind.
    2:{ apply find_manifest_None in Efind. done. }
    destruct saved as [err|]; cbn [fst snd];
      (split; [done|]); (split; [done|]);
      (split; [unfold UpdateConfig; simpl; by rewrite desired_set_plugin_state, decide_True|]);
      (split; [unfold UpdateConfig; simpl; by rewrite desired_set_plugin_state, decide_True|]);
      (split; [intros id' Hne; unfold UpdateConfig; simpl;
               by rewrite !desired_set_plugin_state, !decide_False|]).
    + split; [done|]. split; [done|]. by intros e [[= <-]|[= <-]].
    + split; [done|]. split; [done|]. by intros e [?|?].
Qed.

Lemma EnablePlugin_sets_flag_aux (id : string) (saved : option AppError) (a : App)
    (env : Environment) (fs : FS) (plugins : list BundleInfo) :
  PluginEnv a = Some env → PluginSettingsEnable (Config a) = true →
  Plugins env fs = (plugins, None) → id ∈ bundle_id <$> plugins →
  (EnablePlugin id saved a fs).2 = UpdateConfig (set_plugin_state id true) a ∧
  (DisablePlugin id saved a fs).2 = UpdateConfig (set_plugin_state id false) a.
Proof.
  intros Henv Hon Hplugins Hin. unfold EnablePlugin, DisablePlugin.
  rewrite Henv, Hon, Hplugins. simpl negb. cbv iota.
  destruct (find_manifest id plugins) as [m|] eqn:Efind.
  - by destruct saved.
  - apply find_manifest_None in Efind. done.
Qed.

Lemma foldl_l4g (a : App) (lines : list string) :
  same_app a (foldl (λ acc err, l4g (LogError err) acc) a lines) ∧
  Published (foldl (λ acc err, l4g (LogError err) acc) a lines) = Published a ∧
  Log (foldl (λ acc err, l4g (LogError err) acc) a lines) = Log a ++ (LogError <$> lines).
Proof.
  revert a. induction lines as [|err lines IH]; intros a; simpl.
  { by rewrite app_nil_r. }
  destruct (IH (l4g (LogError err) a)) as ((H1 & H2 & H3 & H4) & H5 & H6).
  rewrite H5, H6. simpl in *. rewrite <- app_assoc. repeat split; congruence.
Qed.

(** X14: from the flag to the running plugin: after [EnablePlugin] of an
    installed plugin, the configuration listener of [InitPlugins]
    reconciles, so that the plugin is active if it was or if its startup
    succeeds, and when it was inactive, starts, and its manifest declares
    a client component, the activation is announced; after
    [DisablePlugin] the plugin stays active only if it was and its
    shutdown fails, and a deactivation is announced likewise. *)
Theorem EnablePlugin_then_listener (id : string) (saved : option AppError)
    (hookErrors : list string) (a : App) (env : Environment) (fs : FS)
    (plugins : list BundleInfo) (m : Manifest) :
  PluginEnv a = Some env → PluginSettingsEnable (Config a) = true →
  Plugins env fs = (plugins, None) → find_manifest id plugins = Some m →
  (∃ env2,
     PluginEnv (pluginConfigListener (Config a) (Config (EnablePlugin id saved a fs).2)
                  hookErrors (EnablePlugin id saved a fs).2 fs) = Some env2 ∧
     IsPluginActive env2 id =
       IsPluginActive env id || bool_decide (OnActivate env id = None) ∧
     (IsPluginActive env id = false → OnActivate env id = None → HasClient m = true →
      {| Event := WEBSOCKET_EVENT_PLUGIN_ACTIVATED; EventManifest := ClientManifest m |}
        ∈ Published (pluginConfigListener (Config a)
                       (Config (EnablePlugin id saved a fs).2)
                       hookErrors (EnablePlugin id saved a fs).2 fs))) ∧
  (∃ env2,
     PluginEnv (pluginConfigListener (Config a) (Config (DisablePlugin id saved a fs).2)
                  hookErrors (DisablePlugin id saved a fs).2 fs) = Some env2 ∧
     IsPluginActive env2 id =
       IsPluginActive env id && negb (bool_decide (OnDeactivate env id = None)) ∧
     (IsPluginActive env id = true → OnDeactivate env id = None → HasClient m = true →
      {| Event := WEBSOCKET_EVENT_PLUGIN_DEACTIVATED; EventManifest := ClientManifest m |}
        ∈ Published (pluginConfigListener (Config a)
                       (Config (DisablePlugin id saved a fs).2)
                       hookErrors (DisablePlugin id saved a fs).2 fs))).
Proof.
  intros Henv Hon Hplugins Hfind.
  assert (id ∈ bundle_id <$> plugins) as Hin.
  { destruct (decide (id ∈ bundle_id <$> plugins)) as [|Hnin]; [done|].
    apply find_manifest_None in Hnin. congruence. }
  destruct (find_manifest_first id plugins m Hfind) as (q & Hq & Hqm & Hqid).
  assert (∀ b, ∃ env2,
    PluginEnv (pluginConfigListener (Config a)
                 (Config (UpdateConfig (set_plugin_state id b) a)) hookErrors
                 (UpdateConfig (set_plugin_state id b) a) fs) = Some env2 ∧
    IsPluginActive env2 id =
      next_active (Config (UpdateConfig (set_plugin_state id b) a)) env id ∧
    Published (pluginConfigListener (Config a)
                 (Config (UpdateConfig (set_plugin_state id b) a)) hookErrors
                 (UpdateConfig (set_plugin_state id b) a) fs) =
      Published a ++
      flat_map (notifications (Config (UpdateConfig (set_plugin_state id b) a)) env)
        (first_bundles plugins)) as Hrun.
  { intros b. unfold pluginConfigListener.
    change (PluginEnv (UpdateConfig (set_plugin_state id b) a)) with (PluginEnv a).
    rewrite Henv.
    change (PluginSettingsEnable (Config (UpdateConfig (set_plugin_state id b) a)))
      with (PluginSettingsEnable (Config a)).
    rewrite Hon. cbn [andb].
    destruct (reconcile_loop fs plugins plugins env (UpdateConfig (set_plugin_state id b) a)
                Hplugins) as (env' & a' & lines & Hloop & Hreg & Happ & Hact & Hpub & _);
      [done|].
    rewrite (ActivatePlugins_loop fs _ env plugins) by done. rewrite Hloop. cbn [fst snd].
    destruct (foldl_l4g (set_env (Some env') a') hookErrors) as ((_ & -> & _) & -> & _).
    exists env'. split; [done|]. split.
    - by rewrite Hact, decide_True.
    - simpl. exact Hpub. }
  destruct (EnablePlugin_sets_flag_aux id saved a env fs plugins Henv Hon Hplugins Hin)
    as [-> ->].
  split.
  - destruct (Hrun true) as (env2 & He & Hact & Hpub). exists env2. split; [done|].
    unfold next_active in Hact. simpl in Hact.
    rewrite desired_set_plugin_state, decide_True in Hact by done.
    split; [done|]. intros Hina Hok Hclient. rewrite Hpub.
    apply elem_of_app. right. apply list_elem_of_In, in_flat_map.
    exists q. split; [by apply list_elem_of_In|].
    unfold notifications, next_active, lifecycle_event. simpl.
    rewrite Hqid, Hqm, desired_set_plugin_state, decide_True, Hina, Hok, Hclient by done.
    by left.
  - destruct (Hrun false) as (env2 & He & Hact & Hpub). exists env2. split; [done|].
    unfold next_active in Hact. simpl in Hact.
    rewrite desired_set_plugin_state, decide_True in Hact by done.
    split; [done|]. intros Hina Hok Hclient. rewrite Hpub.
    apply elem_of_app. right. apply list_elem_of_In, in_flat_map.
    exists q. split; [by apply list_elem_of_In|].
    unfold notifications, next_active, lifecycle_event. simpl.
    rewrite Hqid, Hqm, desired_set_plugin_state, decide_True, Hina, Hok, Hclient by done.
    by left.
Qed.

Lemma filter_agree {A : Type} (P Q : A → Prop) `{∀ x, Decision (P x)} `{∀ x, Decision (Q x)}
    (l : list A) :
  (∀ x, x ∈ l → P x ↔ Q x) → filter P l = filter Q l.
Proof.
  induction l as [|x l IH]; intros Hpq; [done|]. rewrite !filter_cons.
  rewrite IH by (intros y Hy; apply Hpq; by right).
  destruct (decide (P x)) as [Hp|Hp], (decide (Q x)) as [Hq|Hq]; try done.
  - exfalso. apply Hq, (Hpq x); [by left|done].
  - exfalso. apply Hp, (Hpq x); [by left|done].
Qed.

Lemma manifests_loop (env : Environment) (plugins : list BundleInfo) (resp : PluginsResponse) :
  let out := foldl (λ resp plugin,
                 if IsPluginActive env (Id (BundleManifest plugin)) then
                   {| Active := Active resp ++ [BundleManifest plugin];
                      Inactive := Inactive resp |}
                 else
                   {| Active := Active resp;
                      Inactive := Inactive resp ++ [BundleManifest plugin] |})
               resp plugins in
  Active out = Active resp ++
    (BundleManifest <$> filter (λ p, IsPluginActive env (bundle_id p) = true) plugins) ∧
  Inactive out = Inactive resp ++
    (BundleManifest <$> filter (λ p, IsPluginActive env (bundle_id p) = false) plugins).
Proof.
  revert resp. induction plugins as [|p plugins IH]; intros resp; simpl.
  { by rewrite !app_nil_r. }
  rewrite !filter_cons. fold (bundle_id p).
  destruct (IsPluginActive env (bundle_id p)) eqn:Eact.
  - destruct (IH {| Active := Active resp ++ [BundleManifest p];
                    Inactive := Inactive resp |}) as [-> ->].
    rewrite decide_True, decide_False by done. simpl. by rewrite <- app_assoc.
  - destruct (IH {| Active := Active resp;
                    Inactive := Inactive resp ++ [BundleManifest p] |}) as [-> ->].
    rewrite decide_False, decide_True by done. simpl. by rewrite <- app_assoc.
Qed.

(** X15: [GetPluginManifests] reports every installed bundle once, in the
    order of the listing: under [Active] the manifests of the bundles
    whose plugin is active, under [Inactive] the others.  Right after a
    run of [ActivatePlugins] whose transitions succeed, [Active] holds
    the manifests of the enabled bundles and [Inactive] those of the
    others. *)
Theorem GetPluginManifests_partition (a : App) (env : Environment) (fs : FS)
    (plugins : list BundleInfo) :
  PluginEnv a = Some env → PluginSettingsEnable (Config a) = true →
  Plugins env fs = (plugins, None) →
  (∃ resp, GetPluginManifests a fs = (Some resp, None) ∧
     Active resp =
       BundleManifest <$> filter (λ p, IsPluginActive env (bundle_id p) = true) plugins ∧
     Inactive resp =
       BundleManifest <$> filter (λ p, IsPluginActive env (bundle_id p) = false) plugins ∧
     (length (Active resp) + length (Inactive resp) = length plugins)%nat) ∧
  (transitions_succeed (Config a) env plugins →
   ∃ resp, GetPluginManifests (ActivatePlugins a fs) fs = (Some resp, None) ∧
     Active resp =
       BundleManifest <$> filter (λ p, desired (Config a) (bundle_id p) = true) plugins ∧
     Inactive resp =
       BundleManifest <$> filter (λ p, desired (Config a) (bundle_id p) = false) plugins).
Proof.
  intros Henv Hon Hplugins.
  assert (∀ a' env', PluginEnv a' = Some env' → Config a' = Config a →
            SearchPath env' = SearchPath env →
            ∃ resp, GetPluginManifests a' fs = (Some resp, None) ∧
              Active resp = BundleManifest <$>
                filter (λ p, IsPluginActive env' (bundle_id p) = true) plugins ∧
              Inactive resp = BundleManifest <$>
                filter (λ p, IsPluginActive env' (bundle_id p) = false) plugins) as Hlist.
  { intros a' env' He Hc Hs. unfold GetPluginManifests. rewrite He, Hc, Hon. simpl negb.
    cbv iota. unfold Plugins in *. rewrite Hs. rewrite Hplugins.
    eexists. split; [done|]. apply (manifests_loop env' plugins). }
  split.
  - destruct (Hlist a env Henv eq_refl eq_refl) as (resp & Hget & Hact & Hina).
    exists resp. split; [done|]. split; [done|]. split; [done|].
    rewrite Hact, Hina, !length_fmap. clear.
    induction plugins as [|p plugins IH]; [done|]. rewrite !filter_cons.
    destruct (IsPluginActive env (bundle_id p)).
    + rewrite decide_True, decide_False by done. simpl. lia.
    + rewrite decide_False, decide_True by done. simpl. lia.
  - intros Hok.
    destruct (reconcile_loop fs plugins plugins env a Hplugins)
      as (env' & a' & lines & Hloop & Hreg & Happ & Hact & _); [done|].
    destruct (Hlist (ActivatePlugins a fs) env') as (resp & Hget & HA & HI).
    + rewrite (ActivatePlugins_loop fs a env plugins) by done. by rewrite Hloop.
    + rewrite (ActivatePlugins_loop fs a env plugins) by done. rewrite Hloop. simpl.
      apply Happ.
    + apply Hreg.
    + exists resp. split; [done|]. rewrite HA, HI.
      assert (∀ p, p ∈ plugins →
                IsPluginActive env' (bundle_id p) = desired (Config a) (bundle_id p)) as Hall.
      { intros p Hp. rewrite Hact, decide_True by (apply list_elem_of_fmap; eauto).
        by apply (next_active_desired _ _ plugins). }
      split; f_equal; apply filter_agree; intros p Hp; by rewrite Hall.
Qed.

End Enable.

(** ** The subsystem switched off *)

Section SwitchedOff.

Import Lifecycle Admin.

(** X16: with the plugin environment missing or [PluginSettings.Enable] off,
    every entry point answers with the not-implemented error of the
    disabled subsystem and does nothing else: nothing is installed,
    removed, enabled, disabled or listed, the disk and the application
    are as before, and a request is answered with status 501 and not
    dispatched. *)
Theorem plugins_disabled_guard (a : App) :
  PluginEnv a = None ∨ PluginSettingsEnable (Config a) = false →
  (∀ suffixes pluginFile fs,
     InstallPlugin suffixes pluginFile a fs =
       ((None, Some (NewAppError "InstallPlugin" "app.plugin.disabled.app_error"
                       "" StatusNotImplemented)), fs)) ∧
  (∀ id fault fs,
     RemovePlugin id fault a fs =
       ((Some (NewAppError "RemovePlugin" "app.plugin.disabled.app_error"
                 "" StatusNotImplemented), a), fs)) ∧
  (∀ id saved fs,
     EnablePlugin id saved a fs =
       (Some (NewAppError "RemovePlugin" "app.plugin.disabled.app_error"
                "" StatusNotImplemented), a) ∧
     DisablePlugin id saved a fs =
       (Some (NewAppError "RemovePlugin" "app.plugin.disabled.app_error"
                "" StatusNotImplemented), a)) ∧
  (∀ fs,
     GetPluginManifests a fs =
       (None, Some (NewAppError "GetPluginManifests" "app.plugin.disabled.app_error"
                      "" StatusNotImplemented))) ∧
  (∀ r, ∃ e, StatusCode e = StatusNotImplemented ∧
     ServePluginRequest a r =
       (Answered [WriteHeader StatusNotImplemented;
                  SetHeader "Content-Type" "application/json"; WriteBody e],
        l4g (LogError (ErrorString e)) a)).
Proof.
  intros Hoff.
  unfold InstallPlugin, RemovePlugin, EnablePlugin, DisablePlugin, GetPluginManifests,
    ServePluginRequest.
  assert (PluginEnv a = None ∨ (∃ env, PluginEnv a = Some env) ∧
            PluginSettingsEnable (Config a) = false) as [-> | [[env ->] ->]].
  { destruct Hoff as [?|?]; [by left|]. destruct (PluginEnv a); eauto. }
  - split; [done|]. split; [done|]. split; [by intros; split|]. split; [done|].
    intros r. eexists. split; [|reflexivity]. reflexivity.
  - simpl negb. cbv iota.
    split; [done|]. split; [done|]. split; [by intros; split|]. split; [done|].
    intros r. eexists. split; [|reflexivity]. reflexivity.
Qed.

Lemma elem_of_Shutdown (env : Environment) (err : string) :
  err ∈ Shutdown env ↔ ∃ id, id ∈ activePlugins env ∧ OnDeactivate env id = Some err.
Proof.
  unfold Shutdown. rewrite list_elem_of_omap. split.
  - intros (id & Hin & Hoff). apply elem_of_elements in Hin. eauto.
  - intros (id & Hin & Hoff). exists id. by rewrite elem_of_elements.
Qed.

(** X17: [ShutDownPlugins] drops the plugin environment and the configuration
    listener, logs the error of each active plugin whose shutdown fails
    and nothing else besides its own notice, and leaves the
    configuration, the store and the published events alone.  After it
    a second call changes nothing, [ActivatePlugins] and the
    configuration listener activate nothing, and a request is answered
    with status 501. *)
Theorem ShutDownPlugins_stops (a : App) (ls : Listeners) :
  PluginEnv (ShutDownPlugins a ls).1 = None ∧
  Config (ShutDownPlugins a ls).1 = Config a ∧
  Store (ShutDownPlugins a ls).1 = Store a ∧
  Published (ShutDownPlugins a ls).1 = Published a ∧
  (∀ env, PluginEnv a = Some env →
     Log (ShutDownPlugins a ls).1 =
       Log a ++ LogInfo "Shutting down plugins" :: (LogError <$> Shutdown env) ∧
     (∀ err, err ∈ Shutdown env ↔
             ∃ id, id ∈ activePlugins env ∧ OnDeactivate env id = Some err) ∧
     PluginConfigListenerId (ShutDownPlugins a ls).2 = "" ∧
     PluginConfigListenerId ls ∉ ConfigListeners (ShutDownPlugins a ls).2) ∧
  ShutDownPlugins (ShutDownPlugins a ls).1 (ShutDownPlugins a ls).2 = ShutDownPlugins a ls ∧
  (∀ fs, PluginEnv (ActivatePlugins (ShutDownPlugins a ls).1 fs) = None ∧
         Published (ActivatePlugins (ShutDownPlugins a ls).1 fs) = Published a) ∧
  (∀ prevCfg cfg hookErrors fs,
     pluginConfigListener prevCfg cfg hookErrors (ShutDownPlugins a ls).1 fs =
       (ShutDownPlugins a ls).1) ∧
  (∀ r, ∃ e, (ServePluginRequest (ShutDownPlugins a ls).1 r).1 =
               Answered [WriteHeader StatusNotImplemented;
                         SetHeader "Content-Type" "application/json"; WriteBody e]).
Proof.
  unfold ShutDownPlugins. destruct (PluginEnv a) as [env|] eqn:Henv.
  - destruct (foldl_l4g (l4g (LogInfo "Shutting down plugins") a) (Shutdown env))
      as ((Hc & He & Hs & Hg) & Hp & Hl).
    remember (foldl (λ acc err, l4g (LogError err) acc)
                (l4g (LogInfo "Shutting down plugins") a) (Shutdown env)) as a2 eqn:Ea2.
    clear Ea2. destruct a2 as [cfg2 env2 store2 sess2 pub2 log2]. simpl in *. subst.
    split; [done|]. split; [done|]. split; [done|]. split; [done|].
    split.
    { intros ? [= <-]. split; [by rewrite <- app_assoc|].
      split; [apply elem_of_Shutdown|]. split; [done|].
      rewrite elem_of_difference, elem_of_singleton. tauto. }
    split; [done|].
    unfold ActivatePlugins, pluginConfigListener, ServePluginRequest. simpl.
    split; [done|]. split; [done|]. intros r. eexists. done.
  - cbn [fst snd]. rewrite Henv.
    split; [done|]. split; [done|]. split; [done|]. split; [done|].
    split; [done|]. split; [done|].
    unfold ActivatePlugins, pluginConfigListener, ServePluginRequest. rewrite Henv. simpl.
    split; [done|]. split; [done|]. intros r. eexists. done.
Qed.

End SwitchedOff.

(** ** The further properties at the sample data *)

Section Scenes.

Import Samples Lifecycle Admin Scenarios.

Lemma result_parts {A B C : Type} (x : A * B * C) (b : B) :
  x.1.2 = b → x = ((x.1.1, b), x.2).
Proof. destruct x as [[? ?] ?]. simpl. by intros ->. Qed.


(** X1 at the sample server on the undisturbed table. *)
Lemma plugin_key_round_trip_witness :
  ∃ a1 a2 a3,
    SetPluginKey "jira" "key" [1; 2] office = (None, a1) ∧
    GetPluginKey "jira" "key" a1 = ((Some [1; 2], None), a2) ∧
    DeletePluginKey "jira" "key" a2 = (None, a3) ∧
    (GetPluginKey "jira" "key" a3).1 = (None, None).
Proof.
  apply (plugin_key_round_trip "jira" "key" [1; 2] office);
    [done | done | reflexivity | by left].
Defined.

(** X2 for the pairs [("a", "bc")] and [("ab", "c")]. *)
Lemma plugin_key_shared_entry_witness :
  ∃ a1 a2 a3,
    SetPluginKey "a" "bc" [1] office = (None, a1) ∧
    GetPluginKey "ab" "c" a1 = ((Some [1], None), a2) ∧
    DeletePluginKey "ab" "c" a2 = (None, a3) ∧
    (GetPluginKey "a" "bc" a3).1 = (None, None).
Proof.
  apply (plugin_key_shared_entry "a" "bc" "ab" "c" [1] office);
    [done | done | done | done | reflexivity | reflexivity | by left].
Defined.

(** X3 for the key [key] of [jira] and of [zoom]. *)
Lemma plugin_key_isolation_witness :
  (GetPluginKey "zoom" "key" (SetPluginKey "jira" "key" [1] office).2).1 =
    (GetPluginKey "zoom" "key" office).1.
Proof.
  refine (proj1 (plugin_key_isolation "jira" "key" "zoom" "key" [1] office _ _ _ _ _ _ _));
    [done | done | done | done | | reflexivity | by left].
  vm_compute. discriminate.
Defined.

(** X4 on the sample table behind MySQL. *)
Lemma SaveOrUpdate_mysql_witness :
  Issued (SaveOrUpdate {| Key := "k"; Model.Value := [1] |} (table "mysql" [])).2 =
    [ StUpsert {| Key := "k"; Model.Value := [1] |} ].
Proof.
  refine (proj1 (SaveOrUpdate_mysql {| Key := "k"; Model.Value := [1] |}
                   (table "mysql" []) _ _)); reflexivity.
Defined.

(** X5 for a key of one byte. *)
Lemma IsValid_bounds_witness : IsValid {| Key := "k"; Model.Value := [] |} = None.
Proof.
  apply (proj1 (IsValid_bounds {| Key := "k"; Model.Value := [] |})). simpl. lia.
Defined.

(** X6 for the keys [key] and [kez] of [jira]. *)
Lemma getKeyHash_one_byte_apart_witness :
  (getKeyHash "jira" "key").1 ≠ (getKeyHash "jira" "kez").1.
Proof.
  apply (getKeyHash_one_byte_apart "jira" "key" "jira" "kez" "jirake" "" "y" "z");
    [done | done | done | done | reflexivity | reflexivity | done].
Defined.



(** X9 for an archive with no manifest: the disk is as before. *)
Lemma InstallPlugin_failure_restores_witness :
  (InstallPlugin ["4711"] broken_archive office disk).2 = disk.
Proof.
  refine (proj2 (InstallPlugin_failure_restores ["4711"] broken_archive office disk
                   (InstallPlugin ["4711"] broken_archive office disk).2
                   (InstallPlugin ["4711"] broken_archive office disk).1.1
                   (NewAppError "InstallPlugin" "app.plugin.manifest.app_error"
                      "manifest not found" StatusBadRequest) _ _)).
  - apply result_parts. vm_compute. reflexivity.
  - vm_compute. discriminate.
Defined.


(** X11 at the sample disk, where no [giphy] is installed. *)
Lemma RemovePlugin_refuses_witness :
  RemovePlugin "giphy" None office disk =
    ((Some (NewAppError "RemovePlugin" "app.plugin.not_installed.app_error"
              "" StatusBadRequest), office), disk).
Proof.
  refine (proj1 (RemovePlugin_refuses "giphy" None office (registry None) disk
                   [jira_bundle; zoom_bundle] _ _ _) _);
    [reflexivity | reflexivity | by vm_compute |].
  refine (bool_decide_unpack _ _). vm_compute. exact I.
Defined.


(** X13 at the sample server: [zoom], which has no state entry, is
    enabled. *)
Lemma EnablePlugin_sets_flag_witness :
  desired (Config (EnablePlugin "zoom" None office disk).2) "zoom" = true.
Proof.
  refine (proj1 (proj2 (proj2 (proj2 (EnablePlugin_sets_flag "zoom" None office (registry None)
                   disk [jira_bundle; zoom_bundle] _ _ _) _))));
    [reflexivity | reflexivity | by vm_compute |].
  right. by left.
Defined.

(** X14 at the sample server: [jira], installed and inactive, runs once
    the listener has seen the configuration that [EnablePlugin] wrote. *)
Lemma EnablePlugin_then_listener_witness :
  ∃ env2,
    PluginEnv (pluginConfigListener (Config office)
                 (Config (EnablePlugin "jira" None office disk).2) []
                 (EnablePlugin "jira" None office disk).2 disk) = Some env2 ∧
    IsPluginActive env2 "jira" = true.
Proof.
  destruct (proj1 (EnablePlugin_then_listener "jira" None [] office (registry None) disk
                     [jira_bundle; zoom_bundle] (manifest_of "jira" true)
                     eq_refl eq_refl ltac:(by vm_compute) eq_refl))
    as (env2 & Henv & Hactive & _).
  exists env2. split; [exact Henv|exact Hactive].
Defined.

(** X15 at the sample server: [zoom] is listed as active, [jira] as
    inactive. *)
Lemma GetPluginManifests_partition_witness :
  ∃ resp, GetPluginManifests office disk = (Some resp, None) ∧
    Active resp = [manifest_of "zoom" false] ∧ Inactive resp = [manifest_of "jira" true].
Proof.
  destruct (proj1 (GetPluginManifests_partition office (registry None) disk
                     [jira_bundle; zoom_bundle] eq_refl eq_refl ltac:(by vm_compute)))
    as (resp & Hrun & Hactive & Hinactive & _).
  exists resp. split; [exact Hrun|]. split; [exact Hactive|exact Hinactive].
Defined.

(** X16 at the sample server without its plugin environment. *)
Lemma plugins_disabled_guard_witness :
  GetPluginManifests dark disk =
    (None, Some (NewAppError "GetPluginManifests" "app.plugin.disabled.app_error"
                   "" StatusNotImplemented)).
Proof.
  apply (plugins_disabled_guard dark). by left.
Defined.

(** X17 when both plugins run and neither shuts down cleanly. *)
Lemma ShutDownPlugins_stops_witness :
  PluginEnv (ShutDownPlugins (busy (Some "still busy")) listeners).1 = None ∧
  Log (ShutDownPlugins (busy (Some "still busy")) listeners).1 =
    Log (busy (Some "still busy")) ++
    LogInfo "Shutting down plugins" :: (LogError <$> Shutdown (running (Some "still busy"))).
Proof.
  destruct (ShutDownPlugins_stops (busy (Some "still busy")) listeners)
    as (Henv & _ & _ & _ & Hlog & _).
  split; [exact Henv|]. apply (Hlog (running (Some "still busy"))). reflexivity.
Defined.

End Scenes.
